(** * Health Buddy backend: session store, reasoning stages and request handlers

    A shallow embedding of [backend/sessionManager.js], [backend/aiService.js]
    and the Express application that wires them together, followed by the
    properties of the specification that are settled against it.

    Conventions of the embedding:
    - a JavaScript string is its sequence of UTF-16 code units ([list N]);
    - a JavaScript value that came out of [JSON.parse] (or is built by the
      program from such values) is a [value];
    - the [Map] of sessions holds references: [sessions] maps a session id to
      a location, [objects] is the heap of session objects;
    - [Date.now()] reads the [clock] of the world; time passes between the
      events of the process and while a request to the reasoning capability
      is awaited, which also appends the request to [calls];
    - code that can throw lives in the monad [M], a state monad over [World]
      whose result is either a normal value or the thrown error. *)

From Stdlib Require Import ZArith NArith String Ascii Bool Lia.
From stdpp Require Import base option list gmap.

Local Open Scope N_scope.

(** ** JavaScript strings *)

Abbreviation jsstring := (list N).

(** Code units of an ASCII literal of the source. *)
Fixpoint str (s : string) : jsstring :=
  match s with
  | EmptyString => []
  | String a s' => N_of_ascii a :: str s'
  end.

Arguments str : simpl never.

Definition LF : N := 10.
Definition DQUOTE : N := 34.
Definition BACKSLASH : N := 92.

Fixpoint jsstring_eqb (a b : jsstring) : bool :=
  match a, b with
  | [], [] => true
  | c :: a', d :: b' => (c =? d) && jsstring_eqb a' b'
  | _, _ => false
  end.

(** [s.startsWith(p)] *)
Fixpoint startsWith (s p : jsstring) {struct p} : bool :=
  match p with
  | [] => true
  | c :: p' =>
      match s with
      | [] => false
      | d :: s' => (d =? c) && startsWith s' p'
      end
  end.

Arguments startsWith : simpl nomatch.

(** ECMAScript [WhiteSpace] and [LineTerminator] code units, the ones
    [String.prototype.trim] removes. *)
Definition isWhiteSpace (c : N) : bool :=
  (c =? 9) || (c =? 10) || (c =? 11) || (c =? 12) || (c =? 13) || (c =? 32)
  || (c =? 160) || (c =? 5760) || ((8192 <=? c) && (c <=? 8202))
  || (c =? 8232) || (c =? 8233) || (c =? 8239) || (c =? 8287)
  || (c =? 12288) || (c =? 65279).

Fixpoint trimStart (s : jsstring) : jsstring :=
  match s with
  | [] => []
  | c :: s' => if isWhiteSpace c then trimStart s' else s
  end.

Definition trimEnd (s : jsstring) : jsstring := rev (trimStart (rev s)).

(** [s.trim()] *)
Definition trim (s : jsstring) : jsstring := trimEnd (trimStart s).

(** The search of [/\n```$/] from the current position on: the alternative
    matches at a position exactly when what is left of the subject is the
    closing marker; the match is replaced by the empty string. *)
Fixpoint remove_closing (closing s : jsstring) : jsstring :=
  match s with
  | [] => []
  | c :: s' =>
      if jsstring_eqb s closing then [] else c :: remove_closing closing s'
  end.

(** [s.replace(/^```TAG\n|\n```$/g, '')]: the first alternative is anchored
    at index 0, so it is tried there only; after it matched the global search
    resumes behind the match, where only the second alternative can match. *)
Definition replace_fences (tag s : jsstring) : jsstring :=
  let opening := str "```" ++ tag ++ [LF] in
  let closing := LF :: str "```" in
  if startsWith s opening
  then remove_closing closing (drop (length opening) s)
  else remove_closing closing s.

(** The clean-up every stage of [aiService.js] applies to the reply of the
    capability before parsing it:
<<
    if (content.startsWith('```json')) {
      content = content.replace(/^```json\n|\n```$/g, '').trim();
    } else if (content.startsWith('```')) {
      content = content.replace(/^```\n|\n```$/g, '').trim();
    }
>> *)
Definition clean_markdown (content : jsstring) : jsstring :=
  if startsWith content (str "```json")
  then trim (replace_fences (str "json") content)
  else if startsWith content (str "```")
  then trim (replace_fences [] content)
  else content.

(** ** JavaScript values *)

(** A number is kept as the exact decimal [mant * 10 ^ exp10] of its literal;
    the program only ever tests numbers for truthiness. *)
Record number := { mant : Z; exp10 : Z }.

Definition num (z : Z) : number := {| mant := z; exp10 := 0 |}.

(** The binary64 nearest to the decimal is [0] (or [-0]) when the decimal is
    zero or at most half of the least subnormal, [2 ^ -1075]. *)
Definition number_is_zero (n : number) : bool :=
  ((mant n =? 0)
   || ((exp10 n <? 0) && (Z.abs (mant n) * 2 ^ 1075 <=? 10 ^ (- exp10 n))))%Z.

#[local] Unset Elimination Schemes.

Inductive value :=
| VUndefined
| VNull
| VBool (b : bool)
| VNum (n : number)
| VStr (s : jsstring)
| VArr (items : list value)
| VObj (fields : list (jsstring * value)).

#[local] Set Elimination Schemes.

(** [ToBoolean] *)
Definition truthy (v : value) : bool :=
  match v with
  | VUndefined | VNull => false
  | VBool b => b
  | VNum n => negb (number_is_zero n)
  | VStr s => match s with [] => false | _ => true end
  | VArr _ | VObj _ => true
  end.

(** [a || b] *)
Definition js_or (a b : value) : value := if truthy a then a else b.

Fixpoint lookup_field (k : jsstring) (fields : list (jsstring * value)) : value :=
  match fields with
  | [] => VUndefined
  | (k', v) :: rest => if jsstring_eqb k' k then v else lookup_field k rest
  end.

(** Own data property [k] of a value, for the names the program reads
    ([isError], [error], [productName], [ingredients], [answer], ...): none of
    them is found on a prototype, so a primitive, an array or an object
    without the field gives [undefined]. Reading a property of [null] or
    [undefined] is the [TypeError] case, [None]. *)
Definition get (v : value) (k : jsstring) : option value :=
  match v with
  | VUndefined | VNull => None
  | VObj fields => Some (lookup_field k fields)
  | _ => Some VUndefined
  end.

(** [v?.k] *)
Definition get_opt (v : value) (k : jsstring) : value :=
  match v with
  | VObj fields => lookup_field k fields
  | _ => VUndefined
  end.

Fixpoint has_field (k : jsstring) (fields : list (jsstring * value)) : bool :=
  match fields with
  | [] => false
  | (k', _) :: rest => jsstring_eqb k' k || has_field k rest
  end.

(** Whether [ToString] returns for a value that [JSON.parse] built, as a
    template literal and [join] apply it; it throws a [TypeError] otherwise.
    A primitive has a string. An array is converted by [join], which converts
    its elements ([null] gives the empty string). An object is converted by
    its [toString]: the one of [Object.prototype], unless the object has a
    field of that name; the field is no function then, and [valueOf] gives no
    primitive either. *)
Fixpoint has_string (v : value) : bool :=
  match v with
  | VArr items => forallb has_string items
  | VObj fields => negb (has_field (str "toString") fields)
  | _ => true
  end.

(** ** [JSON.parse]

    The text is first cut into tokens by a machine that reads one code unit at
    a time (ECMA-404 lexical grammar: the four white space characters,
    structural characters, the three literal names, strings with their
    escapes, numbers), then the tokens drive a pushdown machine that builds
    the value. *)

Inductive token :=
| TLBrace | TRBrace | TLBracket | TRBracket | TColon | TComma
| TTrue | TFalse | TNull
| TString (s : jsstring)
| TNumber (n : number).

Inductive num_phase :=
| NMinus   (* after the sign: a digit must follow *)
| NZero    (* the integer part is the single digit 0 *)
| NInt     (* inside the integer part *)
| NDot     (* after the point: a digit must follow *)
| NFrac    (* inside the fraction *)
| NE       (* after e or E: a sign or a digit must follow *)
| NESign   (* after the sign of the exponent: a digit must follow *)
| NExp.    (* inside the exponent *)

Record num_acc := {
  neg : bool;      (* a leading minus was read *)
  digits : Z;      (* the digits of integer part and fraction, as one integer *)
  scale : Z;       (* how many of them belong to the fraction *)
  eneg : bool;     (* the exponent is negative *)
  edigits : Z      (* the digits of the exponent *)
}.

Inductive str_phase :=
| SChars                          (* ordinary characters *)
| SEscape                         (* after a backslash *)
| SUnicode (k : nat) (code : N).  (* inside \uXXXX, [S k] digits to go *)

Inductive lex_mode :=
| LStart
| LLiteral (rest : jsstring) (t : token)
| LString (acc : jsstring) (p : str_phase)   (* [acc] is reversed *)
| LNumber (p : num_phase) (a : num_acc).

(** Tokens emitted so far (latest first) and the mode of the machine. *)
Definition lexer : Type := list token * lex_mode.

Definition ch (a : ascii) : N := N_of_ascii a.

Definition isJSONWhiteSpace (c : N) : bool :=
  (c =? 32) || (c =? 9) || (c =? 10) || (c =? 13).

Definition is_digit (c : N) : bool := (48 <=? c) && (c <=? 57).

Definition digit_val (c : N) : Z := Z.of_N (c - 48).

Definition hex_val (c : N) : option N :=
  if is_digit c then Some (c - 48)
  else if (65 <=? c) && (c <=? 70) then Some (c - 55)
  else if (97 <=? c) && (c <=? 102) then Some (c - 87)
  else None.

Definition finish_number (p : num_phase) (a : num_acc) : option token :=
  match p with
  | NZero | NInt | NFrac | NExp =>
      Some (TNumber {| mant := if neg a then - digits a else digits a;
                       exp10 := (if eneg a then - edigits a else edigits a) - scale a |}%Z)
  | _ => None
  end.

Definition start_number (negative : bool) (first : Z) : num_acc :=
  {| neg := negative; digits := first; scale := 0; eneg := false; edigits := 0 |}.

Definition lex_start (out : list token) (c : N) : option lexer :=
  if isJSONWhiteSpace c then Some (out, LStart)
  else if c =? ch "{" then Some (TLBrace :: out, LStart)
  else if c =? ch "}" then Some (TRBrace :: out, LStart)
  else if c =? ch "[" then Some (TLBracket :: out, LStart)
  else if c =? ch "]" then Some (TRBracket :: out, LStart)
  else if c =? ch ":" then Some (TColon :: out, LStart)
  else if c =? ch "," then Some (TComma :: out, LStart)
  else if c =? DQUOTE then Some (out, LString [] SChars)
  else if c =? ch "t" then Some (out, LLiteral (str "rue") TTrue)
  else if c =? ch "f" then Some (out, LLiteral (str "alse") TFalse)
  else if c =? ch "n" then Some (out, LLiteral (str "ull") TNull)
  else if c =? ch "-" then Some (out, LNumber NMinus (start_number true 0))
  else if c =? ch "0" then Some (out, LNumber NZero (start_number false 0))
  else if is_digit c then Some (out, LNumber NInt (start_number false (digit_val c)))
  else None.

Definition push_digit (a : num_acc) (c : N) (fraction : bool) : num_acc :=
  {| neg := neg a; digits := (digits a * 10 + digit_val c)%Z;
     scale := if fraction then (scale a + 1)%Z else scale a;
     eneg := eneg a; edigits := edigits a |}.

Definition push_exp_digit (a : num_acc) (c : N) : num_acc :=
  {| neg := neg a; digits := digits a; scale := scale a;
     eneg := eneg a; edigits := (edigits a * 10 + digit_val c)%Z |}.

Definition set_eneg (a : num_acc) : num_acc :=
  {| neg := neg a; digits := digits a; scale := scale a; eneg := true; edigits := edigits a |}.

(** The number ends in front of [c]; [c] starts whatever comes next. *)
Definition end_number (out : list token) (p : num_phase) (a : num_acc) (c : N) : option lexer :=
  match finish_number p a with
  | Some t => lex_start (t :: out) c
  | None => None
  end.

Definition is_e (c : N) : bool := (c =? ch "e") || (c =? ch "E").

Definition lex_number (out : list token) (p : num_phase) (a : num_acc) (c : N) : option lexer :=
  match p with
  | NMinus =>
      if c =? ch "0" then Some (out, LNumber NZero a)
      else if is_digit c then Some (out, LNumber NInt (push_digit a c false))
      else None
  | NZero =>
      if c =? ch "." then Some (out, LNumber NDot a)
      else if is_e c then Some (out, LNumber NE a)
      else end_number out p a c
  | NInt =>
      if is_digit c then Some (out, LNumber NInt (push_digit a c false))
      else if c =? ch "." then Some (out, LNumber NDot a)
      else if is_e c then Some (out, LNumber NE a)
      else end_number out p a c
  | NDot =>
      if is_digit c then Some (out, LNumber NFrac (push_digit a c true)) else None
  | NFrac =>
      if is_digit c then Some (out, LNumber NFrac (push_digit a c true))
      else if is_e c then Some (out, LNumber NE a)
      else end_number out p a c
  | NE =>
      if c =? ch "+" then Some (out, LNumber NESign a)
      else if c =? ch "-" then Some (out, LNumber NESign (set_eneg a))
      else if is_digit c then Some (out, LNumber NExp (push_exp_digit a c))
      else None
  | NESign =>
      if is_digit c then Some (out, LNumber NExp (push_exp_digit a c)) else None
  | NExp =>
      if is_digit c then Some (out, LNumber NExp (push_exp_digit a c))
      else end_number out p a c
  end.

Definition unescape (c : N) : option N :=
  if c =? DQUOTE then Some DQUOTE
  else if c =? BACKSLASH then Some BACKSLASH
  else if c =? ch "/" then Some (ch "/")
  else if c =? ch "b" then Some 8
  else if c =? ch "f" then Some 12
  else if c =? ch "n" then Some 10
  else if c =? ch "r" then Some 13
  else if c =? ch "t" then Some 9
  else None.

Definition lex_string (out : list token) (acc : jsstring) (p : str_phase) (c : N) : option lexer :=
  match p with
  | SChars =>
      if c =? DQUOTE then Some (TString (rev acc) :: out, LStart)
      else if c =? BACKSLASH then Some (out, LString acc SEscape)
      else if c <? 32 then None
      else Some (out, LString (c :: acc) SChars)
  | SEscape =>
      if c =? ch "u" then Some (out, LString acc (SUnicode 3 0))
      else match unescape c with
           | Some d => Some (out, LString (d :: acc) SChars)
           | None => None
           end
  | SUnicode k code =>
      match hex_val c with
      | Some h =>
          match k with
          | O => Some (out, LString ((code * 16 + h) :: acc) SChars)
          | S k' => Some (out, LString acc (SUnicode k' (code * 16 + h)))
          end
      | None => None
      end
  end.

Definition lex_literal (out : list token) (rest : jsstring) (t : token) (c : N) : option lexer :=
  match rest with
  | [] => None
  | e :: rest' =>
      if c =? e
      then match rest' with
           | [] => Some (t :: out, LStart)
           | _ => Some (out, LLiteral rest' t)
           end
      else None
  end.

Definition lex_step (l : lexer) (c : N) : option lexer :=
  match l with
  | (out, LStart) => lex_start out c
  | (out, LLiteral rest t) => lex_literal out rest t c
  | (out, LString acc p) => lex_string out acc p c
  | (out, LNumber p a) => lex_number out p a c
  end.

Fixpoint lex_run (l : lexer) (s : jsstring) : option lexer :=
  match s with
  | [] => Some l
  | c :: s' =>
      match lex_step l c with
      | Some l' => lex_run l' s'
      | None => None
      end
  end.

(** At the end of the text a number in progress ends too; an open string or
    a literal name cut short is an error. *)
Definition lex_finish (l : lexer) : option (list token) :=
  match l with
  | (out, LStart) => Some (rev out)
  | (out, LNumber p a) =>
      match finish_number p a with
      | Some t => Some (rev (t :: out))
      | None => None
      end
  | _ => None
  end.

Definition lex (s : jsstring) : option (list token) :=
  match lex_run ([], LStart) s with
  | Some l => lex_finish l
  | None => None
  end.

(** A later member with the same name replaces the value of the earlier
    one. *)
Fixpoint set_field (k : jsstring) (v : value) (fields : list (jsstring * value))
  : list (jsstring * value) :=
  match fields with
  | [] => [(k, v)]
  | (k', v') :: rest =>
      if jsstring_eqb k' k then (k', v) :: rest else (k', v') :: set_field k v rest
  end.

(** The parser is a pushdown machine over the tokens. A frame is a
    container whose closing bracket has not been read yet. *)
Inductive frame :=
| FArr (acc : list value)                               (* elements so far, latest first *)
| FObj (acc : list (jsstring * value))                  (* members so far *)
| FMember (acc : list (jsstring * value)) (key : jsstring).  (* inside the value of [key] *)

Inductive parse_mode :=
| PValue                 (* a value must follow *)
| PValueOrClose          (* just behind [[]: a value or []] *)
| PKeyOrClose            (* just behind [{]: a member name or [}] *)
| PKey                   (* behind a comma in an object: a member name *)
| PColon (key : jsstring)
| PHave (v : value).     (* a value is complete *)

Definition parser : Type := list frame * parse_mode.

Definition parse_value_start (stack : list frame) (t : token) : option parser :=
  match t with
  | TLBracket => Some (FArr [] :: stack, PValueOrClose)
  | TLBrace => Some (FObj [] :: stack, PKeyOrClose)
  | TNull => Some (stack, PHave VNull)
  | TTrue => Some (stack, PHave (VBool true))
  | TFalse => Some (stack, PHave (VBool false))
  | TString s => Some (stack, PHave (VStr s))
  | TNumber n => Some (stack, PHave (VNum n))
  | _ => None
  end.

Definition parse_step (p : parser) (t : token) : option parser :=
  match p with
  | (stack, PValue) => parse_value_start stack t
  | (stack, PValueOrClose) =>
      match t, stack with
      | TRBracket, FArr _ :: rest => Some (rest, PHave (VArr []))
      | TRBracket, _ => None
      | _, _ => parse_value_start stack t
      end
  | (stack, PKeyOrClose) =>
      match t, stack with
      | TRBrace, FObj _ :: rest => Some (rest, PHave (VObj []))
      | TString k, _ => Some (stack, PColon k)
      | _, _ => None
      end
  | (stack, PKey) =>
      match t with
      | TString k => Some (stack, PColon k)
      | _ => None
      end
  | (stack, PColon k) =>
      match t, stack with
      | TColon, FObj acc :: rest => Some (FMember acc k :: rest, PValue)
      | _, _ => None
      end
  | (stack, PHave v) =>
      match stack, t with
      | FArr acc :: rest, TComma => Some (FArr (v :: acc) :: rest, PValue)
      | FArr acc :: rest, TRBracket => Some (rest, PHave (VArr (rev (v :: acc))))
      | FMember acc k :: rest, TComma => Some (FObj (set_field k v acc) :: rest, PKey)
      | FMember acc k :: rest, TRBrace => Some (rest, PHave (VObj (set_field k v acc)))
      | _, _ => None
      end
  end.

Fixpoint parse_run (p : parser) (ts : list token) : option parser :=
  match ts with
  | [] => Some p
  | t :: ts' =>
      match parse_step p t with
      | Some p' => parse_run p' ts'
      | None => None
      end
  end.

Definition parse_tokens (ts : list token) : option value :=
  match parse_run ([], PValue) ts with
  | Some ([], PHave v) => Some v
  | _ => None
  end.

(** [JSON.parse(text)]; [None] is the [SyntaxError]. *)
Definition JSON_parse (text : jsstring) : option value :=
  match lex text with
  | Some ts => parse_tokens ts
  | None => None
  end.

(** ** The world of the server process *)

(** One message of a conversation, as [addToConversationHistory] builds it. *)
Record Entry := { role : jsstring; content : value; timestamp : Z }.

(** The session object of [storeAnalysis]. *)
Record Session := {
  analysis : value;
  webInfo : value;
  formattedData : value;
  conversationHistory : list Entry;
  createdAt : Z;
  lastAccessed : Z
}.

(** A request to the reasoning capability ([openai.chat.completions.create]),
    kept as the values the stage renders its prompt from (by a template
    literal, or by [JSON.stringify] and [replace]); the rendered text is a
    function of these values and is not kept. *)
Inductive CapCall :=
| ExtractCall (mimeType imageBase64 : jsstring)
| EnrichCall (productName : value) (ingredients : list value)
| SummarizeCall (analysis webInfo : value)
| RespondCall (analysis webInfo : value) (history : list Entry) (question : jsstring).

Inductive exn :=
| Error (message : jsstring)            (* [throw new Error(message)] *)
| SyntaxError                           (* [JSON.parse] *)
| TypeError                             (* property of null or undefined, call of a non-function *)
| ReferenceError (name : string)        (* identifier without binding *)
| CapabilityError (message : jsstring)  (* rejection of the capability request *)
| InvalidLocation.                      (* no object at the location; no execution gets here *)

(** What awaiting the request and reading
    [response.choices[0].message.content] gives: something is thrown on the
    way (the request is rejected, the response has no text to call
    [startsWith] on), or the text. *)
Inductive CapReply :=
| Failed (e : exn)
| Content (text : jsstring).

(** The capability is outside the program: any function from requests to
    replies, and the time each request takes. *)
Record Capability := {
  reply : CapCall -> CapReply;
  latency : CapCall -> Z
}.

Record World := {
  sessions : gmap jsstring nat;   (* the [Map]: session id to session object *)
  objects : list Session;         (* the session objects, by location *)
  clock : Z;                      (* milliseconds, what [Date.now()] returns *)
  calls : list CapCall            (* requests sent to the capability, oldest first *)
}.

Inductive result (A : Type) :=
| Ok (a : A)
| Thrown (e : exn).

Arguments Ok {A} a.
Arguments Thrown {A} e.

Definition M (A : Type) : Type := World -> result A * World.

Definition ret {A} (a : A) : M A := fun w => (Ok a, w).

Definition bind {A B} (m : M A) (k : A -> M B) : M B :=
  fun w => match m w with
           | (Ok a, w') => k a w'
           | (Thrown e, w') => (Thrown e, w')
           end.

Definition throw {A} (e : exn) : M A := fun w => (Thrown e, w).

(** [try { body } catch (e) { handler }] *)
Definition try_catch {A} (body : M A) (handler : exn -> M A) : M A :=
  fun w => match body w with
           | (Ok a, w') => (Ok a, w')
           | (Thrown e, w') => handler e w'
           end.

Notation "'let*' x := m 'in' k" := (bind m (fun x => k))
  (at level 10, x pattern, m at level 100, k at level 200).
Notation "m ;; k" := (bind m (fun _ => k))
  (at level 100, k at level 200, right associativity).

(** Lifting of a partial operation: [None] throws [e]. *)
Definition or_throw {A} (o : option A) (e : exn) : M A :=
  match o with
  | Some a => ret a
  | None => throw e
  end.

Definition has {A} (o : option A) : bool :=
  match o with
  | Some _ => true
  | None => false
  end.

Definition Date_now : M Z := fun w => (Ok (clock w), w).

(** ** [sessionManager.js] *)

Module sessionManager.

(** [const SESSION_TIMEOUT = 30 * 60 * 1000] *)
Definition SESSION_TIMEOUT : Z := 30 * 60 * 1000.

(** [sessions.get(sessionId)]: the session object bound to the id. (A
    binding to a location without object does not arise; it counts as no
    binding.) *)
Definition sessions_get (sessionId : jsstring) : M (option nat) :=
  fun w => (Ok (match sessions w !! sessionId with
                | Some l => if has (objects w !! l) then Some l else None
                | None => None
                end), w).

(** [sessions.set(sessionId, session)] *)
Definition sessions_set (sessionId : jsstring) (l : nat) : M unit :=
  fun w => (Ok tt, {| sessions := <[sessionId := l]> (sessions w);
                      objects := objects w; clock := clock w; calls := calls w |}).

(** [sessions.delete(sessionId)]: whether the id was bound. *)
Definition sessions_delete (sessionId : jsstring) : M bool :=
  fun w => (Ok (has (sessions w !! sessionId)),
            {| sessions := delete sessionId (sessions w);
               objects := objects w; clock := clock w; calls := calls w |}).

(** A new object: the next free location. *)
Definition alloc (s : Session) : M nat :=
  fun w => (Ok (length (objects w)),
            {| sessions := sessions w; objects := objects w ++ [s];
               clock := clock w; calls := calls w |}).

(** Reading the object behind a reference. *)
Definition deref (l : nat) : M Session :=
  fun w => match objects w !! l with
           | Some s => (Ok s, w)
           | None => (Thrown InvalidLocation, w)
           end.

(** Assignment to properties of the object behind a reference. *)
Definition update (l : nat) (f : Session -> Session) : M unit :=
  fun w => (Ok tt, {| sessions := sessions w;
                      objects := match objects w !! l with
                                 | Some s => <[l := f s]> (objects w)
                                 | None => objects w
                                 end;
                      clock := clock w; calls := calls w |}).

Definition set_lastAccessed (now : Z) (s : Session) : Session :=
  {| analysis := analysis s; webInfo := webInfo s; formattedData := formattedData s;
     conversationHistory := conversationHistory s; createdAt := createdAt s;
     lastAccessed := now |}.

Definition set_conversationHistory (h : list Entry) (s : Session) : Session :=
  {| analysis := analysis s; webInfo := webInfo s; formattedData := formattedData s;
     conversationHistory := h; createdAt := createdAt s;
     lastAccessed := lastAccessed s |}.

(** A parameter declared [= null]: [undefined] becomes [null]. *)
Definition default_null (v : value) : value :=
  match v with
  | VUndefined => VNull
  | _ => v
  end.

Definition storeAnalysis (sessionId : jsstring) (analysis webInfo formattedData : value)
  : M nat :=
  let* created := Date_now in
  let* accessed := Date_now in
  let* session := alloc {| analysis := analysis;
                           webInfo := default_null webInfo;
                           formattedData := default_null formattedData;
                           conversationHistory := [];
                           createdAt := created;
                           lastAccessed := accessed |} in
  sessions_set sessionId session ;;
  ret session.

Definition getAnalysis (sessionId : jsstring) : M (option nat) :=
  let* session := sessions_get sessionId in
  match session with
  | None => ret None
  | Some l =>
      let* now := Date_now in
      update l (set_lastAccessed now) ;;
      sessions_set sessionId l ;;
      ret (Some l)
  end.

(** [h.slice(-10)] *)
Definition slice_last10 (h : list Entry) : list Entry := drop (length h - 10)%nat h.

Definition addToConversationHistory (sessionId role : jsstring) (content : value)
  : M (option nat) :=
  let* session := sessions_get sessionId in
  match session with
  | None => ret None
  | Some l =>
      let* stamp := Date_now in
      update l (fun s => set_conversationHistory
                  (conversationHistory s
                     ++ [{| role := role; content := content; timestamp := stamp |}]) s) ;;
      let* s := deref l in
      (if (10 <? length (conversationHistory s))%nat
       then update l (set_conversationHistory (slice_last10 (conversationHistory s)))
       else ret tt) ;;
      let* now := Date_now in
      update l (set_lastAccessed now) ;;
      sessions_set sessionId l ;;
      ret (Some l)
  end.

Definition hasSession (sessionId : jsstring) : M bool :=
  fun w => (Ok (has (sessions w !! sessionId)), w).

Definition deleteSession (sessionId : jsstring) : M bool :=
  let* deleted := sessions_delete sessionId in
  ret deleted.

(** Whether the sweep removes the session at [l]:
    [now - session.lastAccessed > SESSION_TIMEOUT]. *)
Definition expired (w : World) (now : Z) (l : nat) : bool :=
  match objects w !! l with
  | Some s => (SESSION_TIMEOUT <? now - lastAccessed s)%Z
  | None => false
  end.

(** The callback of [setInterval], run by the timer every five minutes. *)
Definition sweep : M unit :=
  let* now := Date_now in
  fun w => (Ok tt, {| sessions := filter (fun p => expired w now p.2 = false) (sessions w);
                      objects := objects w; clock := clock w; calls := calls w |}).

End sessionManager.

(** Time passing between two events of the process. *)
Definition advance (d : Z) : M unit :=
  fun w => (Ok tt, {| sessions := sessions w; objects := objects w;
                      clock := (clock w + d)%Z; calls := calls w |}).

Definition empty_world (t : Z) : World :=
  {| sessions := ∅; objects := []; clock := t; calls := [] |}.

(** ** [aiService.js] *)

(** [error.message] or a fixed text, as the [details] of a failure. *)
Inductive Details :=
| NoDetails
| Text (s : jsstring)
| MessageOf (e : exn)
| Masked (e : exn).   (* the message in development, a fixed text otherwise *)

(** [v.slice(0, n)]; [None] when the value has no such method. *)
Definition slice (v : value) (n : nat) : option value :=
  match v with
  | VArr items => Some (VArr (take n items))
  | VStr s => Some (VStr (take n s))
  | _ => None
  end.

(** [v?.slice(0, n)] *)
Definition slice_opt (v : value) (n : nat) : option value :=
  match v with
  | VUndefined | VNull => Some VUndefined
  | _ => slice v n
  end.

Module aiService.

(** Awaiting [openai.chat.completions.create(...)] and reading the content
    of the first choice. *)
Definition invoke (cap : Capability) (c : CapCall) : M jsstring :=
  fun w =>
    let w' := {| sessions := sessions w; objects := objects w;
                 clock := (clock w + latency cap c)%Z; calls := calls w ++ [c] |} in
    match reply cap c with
    | Content text => (Ok text, w')
    | Failed e => (Thrown e, w')
    end.

Definition parse (content : jsstring) : M value :=
  or_throw (JSON_parse content) SyntaxError.

Definition prop (v : value) (k : string) : M value :=
  or_throw (get v (str k)) TypeError.

(** The object [analyzeImage] resolves to. *)
Inductive AnalysisResult :=
| AnalysisOk (analysis : value)
| AnalysisFailed (error : value) (details : Details).

Definition analyzeImage (cap : Capability) (imageBase64 mimeType : jsstring)
  : M AnalysisResult :=
  try_catch
    ((match imageBase64 with
      | [] => throw (Error (str "Invalid image data: base64 string is empty or not a string"))
      | _ => ret tt
      end) ;;
     (if startsWith mimeType (str "image/")
      then ret tt
      else throw (Error (str "Invalid MIME type: " ++ mimeType))) ;;
     let* content := invoke cap (ExtractCall mimeType imageBase64) in
     let content := clean_markdown content in
     let* analysis := parse content in
     let* isError := prop analysis "isError" in
     let* error := prop analysis "error" in
     if truthy isError || truthy error
     then ret (AnalysisFailed
                 (js_or error (VStr (str "Failed to analyze the food label")))
                 (Text (str "The model could not process the image as a food label")))
     else ret (AnalysisOk analysis))
    (fun error =>
       ret (AnalysisFailed (VStr (str "Failed to analyze image")) (MessageOf error))).

(** The object [searchProductInfo] resolves to; [webInfo] is present on
    both paths. *)
Record SearchResult := { search_success : bool; search_webInfo : value }.

Definition search_fallback : value :=
  VObj [ (str "ingredientInfo", VArr []);
         (str "nutritionalContext", VStr (str "Additional information unavailable"));
         (str "recommendations",
           VStr (str "Consult with a healthcare provider for personalized advice"));
         (str "comparisons", VArr []) ].

(** [`${v}`] for what the request is built from: the conversion can throw,
    the text itself is not kept. *)
Definition interpolate (v : value) : M unit :=
  if has_string v then ret tt else throw TypeError.

(** [v.join(', ')], kept as the items joined; a value that is no array has
    no such method. *)
Definition join (v : value) : M (list value) :=
  match v with
  | VArr items => if forallb has_string items then ret items else throw TypeError
  | _ => throw TypeError
  end.

Definition searchProductInfo (cap : Capability) (productName ingredients : value)
  : M SearchResult :=
  try_catch
    (interpolate productName ;;   (* [searchQuery] *)
     interpolate productName ;;   (* the prompt *)
     let* first10 := or_throw (slice ingredients 10) TypeError in
     let* joined := join first10 in
     let* content := invoke cap (EnrichCall productName joined) in
     let content := clean_markdown content in
     let* webInfo := parse content in
     ret {| search_success := true; search_webInfo := webInfo |})
    (fun error =>
       ret {| search_success := false; search_webInfo := search_fallback |}).

(** The literal of the [catch] block of [generateFormattedSummary]. *)
Definition summary_fallback (analysis : value) : M value :=
  let* productName := prop analysis "productName" in
  let* brandName := prop analysis "brandName" in
  let* nutritionFacts := prop analysis "nutritionFacts" in
  let* ingredients := prop analysis "ingredients" in
  let* main := or_throw (slice_opt ingredients 5) TypeError in
  let* allergens := prop analysis "allergens" in
  let* certifications := prop analysis "certifications" in
  let na := VStr (str "N/A") in
  let macro k :=
    VObj [ (str "amount", js_or (get_opt nutritionFacts (str k)) na);
           (str "percentage", VNum (num 0)) ] in
  ret (VObj [ (str "formatted", VObj [
    (str "quickVerdict", VObj [
       (str "recommendation", VStr (str "moderate"));
       (str "title", VStr (str "Review Required"));
       (str "summary",
         VStr (str ("Unable to generate a detailed verdict. "
                    ++ "Please review the nutritional information carefully.")));
       (str "keyPoints", VArr [ VStr (str "Check ingredients list");
                                VStr (str "Verify allergen information");
                                VStr (str "Compare with similar products") ]);
       (str "bestFor", VArr [ VStr (str "General consumption") ]);
       (str "avoidIf", VArr [ VStr (str "You have specific dietary restrictions") ]) ]);
    (str "overview", VObj [
       (str "productName", js_or productName (VStr (str "Unknown Product")));
       (str "brand", js_or brandName (VStr (str "Unknown Brand")));
       (str "tagline", VStr (str "Nutritional information available"));
       (str "highlights", VArr [ VStr (str "See details below") ]) ]);
    (str "nutrition", VObj [
       (str "calories", js_or (get_opt nutritionFacts (str "calories")) (VNum (num 0)));
       (str "servingSize", js_or (get_opt nutritionFacts (str "servingSize")) na);
       (str "macros", VObj [ (str "fat", macro "totalFat"%string);
                             (str "carbs", macro "totalCarbohydrate"%string);
                             (str "protein", macro "protein"%string) ]);
       (str "micronutrients", VArr []) ]);
    (str "ingredients", VObj [
       (str "main", js_or main (VArr []));
       (str "beneficial", VArr []);
       (str "concerning", VArr []);
       (str "additives", VArr []) ]);
    (str "allergens", js_or allergens (VArr []));
    (str "certifications", js_or certifications (VArr []));
    (str "healthScore", VObj [
       (str "overall", VNum (num 70));
       (str "category", VStr (str "Moderate"));
       (str "pros", VArr [ VStr (str "Contains essential nutrients") ]);
       (str "cons", VArr [ VStr (str "May contain additives") ]) ]);
    (str "recommendations", VStr (str "Consume in moderation as part of a balanced diet.")) ]) ]).

(** [generateFormattedSummary] resolves to [{ success: true, data }] on
    both paths; only [data] is kept. *)
Definition generateFormattedSummary (cap : Capability) (analysis webInfo : value)
  : M value :=
  try_catch
    (let* content := invoke cap (SummarizeCall analysis webInfo) in
     let content := clean_markdown content in
     let* formattedData := parse content in
     ret formattedData)
    (fun error => summary_fallback analysis).

Inductive FollowUpResult :=
| FollowUpOk (response : value)
| FollowUpFailed (error : jsstring) (details : Details).

Definition plain_answer (content : jsstring) : value :=
  VObj [ (str "answer", VStr content);
         (str "suggestedQuestions",
           VArr [ VStr (str "What are the main ingredients?");
                  VStr (str "Is this product healthy?");
                  VStr (str "What are the allergens?") ]) ].

Definition handleFollowUp (cap : Capability) (analysis webInfo : value)
    (question : jsstring) (conversationHistory : list Entry) : M FollowUpResult :=
  try_catch
    (let* content := invoke cap (RespondCall analysis webInfo conversationHistory question) in
     let content := clean_markdown content in
     let* responseData := try_catch (parse content) (fun _ => ret (plain_answer content)) in
     ret (FollowUpOk responseData))
    (fun error =>
       ret (FollowUpFailed (str "Failed to process follow-up question") (MessageOf error))).

End aiService.

(** ** The Express application *)

(** [buffer.toString('base64')] *)
Definition b64_char (i : N) : N :=
  if i <? 26 then 65 + i
  else if i <? 52 then 97 + (i - 26)
  else if i <? 62 then 48 + (i - 52)
  else if i =? 62 then 43
  else 47.

Fixpoint base64 (b : list Byte.byte) : jsstring :=
  match b with
  | [] => []
  | [x] =>
      let x := Byte.to_N x in
      [ b64_char (N.shiftr x 2); b64_char (N.shiftl (N.land x 3) 4); 61; 61 ]
  | [x; y] =>
      let x := Byte.to_N x in
      let y := Byte.to_N y in
      [ b64_char (N.shiftr x 2);
        b64_char (N.lor (N.shiftl (N.land x 3) 4) (N.shiftr y 4));
        b64_char (N.shiftl (N.land y 15) 2); 61 ]
  | x :: y :: z :: rest =>
      let x := Byte.to_N x in
      let y := Byte.to_N y in
      let z := Byte.to_N z in
      b64_char (N.shiftr x 2)
        :: b64_char (N.lor (N.shiftl (N.land x 3) 4) (N.shiftr y 4))
        :: b64_char (N.lor (N.shiftl (N.land y 15) 2) (N.shiftr z 6))
        :: b64_char (N.land z 63)
        :: base64 rest
  end.

(** The response a handler sends: [{ success: false, error, details }] with
    its status, or the body of one of the successful answers. *)
Inductive Response :=
| Failure (status : Z) (error : value) (details : Details)
| Analyzed (sessionId : jsstring) (data : value) (suggestedQuestions : list jsstring)
| Answered (response suggestedQuestions : value) (conversationHistory : list Entry)
| Deleted (success : bool) (message : jsstring).

(** The file part of a multipart request, as multer hands it over. *)
Record File := { mimetype : jsstring; buffer : list Byte.byte }.

Module app.

Import sessionManager aiService.

Definition SUPPORTED_IMAGE_TYPES : list jsstring :=
  [ str "image/jpeg"; str "image/png"; str "image/gif"; str "image/webp" ].

(** [list.includes(x)] *)
Definition includes (l : list jsstring) (x : jsstring) : bool :=
  existsb (jsstring_eqb x) l.

(** [limits: { fileSize: 10 * 1024 * 1024 }] *)
Definition fileSize : N := 10 * 1024 * 1024.

(** The identifiers bound at the top level of the application module. The
    destructuring of [require('./sessionManager')] binds [storeAnalysis],
    [getAnalysis], [updateSession], [addToConversationHistory],
    [hasSession] and [getSessionStats]. *)
Definition bindings : list string :=
  [ "express"; "cors"; "multer"; "uuidv4";
    "analyzeImage"; "searchProductInfo"; "generateFormattedSummary"; "handleFollowUp";
    "storeAnalysis"; "getAnalysis"; "updateSession"; "addToConversationHistory";
    "hasSession"; "getSessionStats";
    "app"; "PORT"; "SUPPORTED_IMAGE_TYPES"; "storage"; "upload";
    "generateSessionId"; "validateSession" ]%string.

(** Evaluation of an identifier of the module: without a binding it is a
    [ReferenceError]. *)
Definition resolve {A} (name : string) (bound : A) : M A :=
  if existsb (String.eqb name) bindings then ret bound else throw (ReferenceError name).

(** The error-handling middleware at the end of the application. *)
Definition error_middleware (multer_error : bool) (err : exn) : Response :=
  if multer_error
  then Failure 400 (VStr (str "File upload error")) (MessageOf err)
  else Failure 500 (VStr (str "Internal server error")) (Masked err).

Definition default_webInfo : value :=
  VObj [ (str "ingredientInfo", VArr []);
         (str "nutritionalContext", VStr (str "Additional information unavailable"));
         (str "recommendations", VStr (str "Consult with a healthcare provider"));
         (str "comparisons", VArr []) ].

Definition analyze_suggestions : list jsstring :=
  [ str "What are the main health benefits?";
    str "Are there any concerning ingredients?";
    str "Is this suitable for my diet?";
    str "How does this compare to similar products?" ].

(** The handler of [POST /api/analyze], behind [upload.single('image')];
    [file] is [req.file], [sessionId] what [uuidv4()] will return. *)
Definition analyze_handler (cap : Capability) (sessionId : jsstring) (file : option File)
  : M Response :=
  try_catch
    (match file with
     | None =>
         ret (Failure 400 (VStr (str "No file uploaded or unsupported file type")) NoDetails)
     | Some f =>
         let imageBase64 := base64 (buffer f) in
         let* analysisResult := analyzeImage cap imageBase64 (mimetype f) in
         match analysisResult with
         | AnalysisFailed error details => ret (Failure 500 error details)
         | AnalysisOk analysis =>
             let* productName := prop analysis "productName" in
             let* ingredients := prop analysis "ingredients" in
             let* webSearchResult :=
               searchProductInfo cap
                 (js_or productName (VStr (str "Unknown Product")))
                 (js_or ingredients (VArr [])) in
             let webInfo := if search_success webSearchResult
                            then search_webInfo webSearchResult
                            else default_webInfo in
             let* formattedData := generateFormattedSummary cap analysis webInfo in
             storeAnalysis sessionId analysis webInfo formattedData ;;
             ret (Analyzed sessionId formattedData analyze_suggestions)
         end
     end)
    (fun error =>
       ret (Failure 500 (VStr (str "Failed to process image")) (MessageOf error))).

(** [POST /api/analyze] with the multer middleware in front: the file
    filter runs when the part starts, the size limit while it is read. *)
Definition post_analyze (cap : Capability) (sessionId : jsstring) (part : option File)
  : M Response :=
  match part with
  | None => analyze_handler cap sessionId None
  | Some f =>
      if negb (includes SUPPORTED_IMAGE_TYPES (mimetype f))
      then ret (error_middleware false (Error (str "Unsupported file type")))
      else if fileSize <? N.of_nat (length (buffer f))
      then ret (error_middleware true (Error (str "File too large")))
      else analyze_handler cap sessionId (Some f)
  end.

(** The handler of [POST /api/chat]; [sessionId] is [req.sessionId],
    [message] is [req.body.message]. *)
Definition chat_handler (cap : Capability) (sessionId : jsstring) (message : value)
  : M Response :=
  try_catch
    (match message with
     | VStr question =>
         match trim question with
         | [] =>
             ret (Failure 400
                    (VStr (str "Message is required and must be a non-empty string"))
                    NoDetails)
         | _ =>
             let* sessionData := getAnalysis sessionId in
             match sessionData with
             | None =>
                 ret (Failure 404 (VStr (str "Session not found or expired")) NoDetails)
             | Some l =>
                 addToConversationHistory sessionId (str "user") message ;;
                 let* s := deref l in
                 let* followUpResult :=
                   handleFollowUp cap (analysis s) (js_or (webInfo s) (VObj []))
                     question (conversationHistory s) in
                 match followUpResult with
                 | FollowUpFailed error details => ret (Failure 500 (VStr error) details)
                 | FollowUpOk aiResponse =>
                     let* answer := prop aiResponse "answer" in
                     addToConversationHistory sessionId (str "assistant") answer ;;
                     let* suggestedQuestions := prop aiResponse "suggestedQuestions" in
                     let* s' := deref l in
                     ret (Answered answer (js_or suggestedQuestions (VArr []))
                            (conversationHistory s'))
                 end
             end
         end
     | _ =>
         ret (Failure 400
                (VStr (str "Message is required and must be a non-empty string"))
                NoDetails)
     end)
    (fun error =>
       ret (Failure 500 (VStr (str "Failed to process message")) (MessageOf error))).

(** [POST /api/chat] with [validateSession] in front; [header] is the value
    of [X-Session-ID], if the request carries one. *)
Definition post_chat (cap : Capability) (header : option jsstring) (message : value)
  : M Response :=
  match header with
  | None | Some [] =>
      ret (Failure 400 (VStr (str "Session ID is required in X-Session-ID header")) NoDetails)
  | Some sessionId =>
      let* known := hasSession sessionId in
      if known
      then chat_handler cap sessionId message
      else ret (Failure 404
                  (VStr (str "Session not found or expired. Please scan the product again."))
                  NoDetails)
  end.

(** The handler of [DELETE /api/session/:sessionId]. *)
Definition delete_handler (sessionId : jsstring) : M Response :=
  let* deleteSession := resolve "deleteSession" sessionManager.deleteSession in
  let* deleted := deleteSession sessionId in
  ret (Deleted deleted (if deleted then str "Session deleted" else str "Session not found")).

(** [DELETE /api/session/:sessionId]: what the handler throws goes to the
    error-handling middleware. *)
Definition delete_session (sessionId : jsstring) : M Response :=
  try_catch (delete_handler sessionId) (fun err => ret (error_middleware false err)).

End app.

(** * Vocabulary of the statements and example data *)

Import sessionManager aiService app.

(** The session an id stands for: the object behind its binding. *)
Definition session_of (w : World) (sessionId : jsstring) : option Session :=
  match sessions w !! sessionId with
  | Some l => objects w !! l
  | None => None
  end.

(** The entry [addToConversationHistory] pushes at time [t]. *)
Definition entry (t : Z) (r : jsstring) (c : value) : Entry :=
  {| role := r; content := c; timestamp := t |}.

(** The session after one append at time [t]. *)
Definition appended (t : Z) (r : jsstring) (c : value) (s : Session) : Session :=
  {| analysis := analysis s; webInfo := webInfo s; formattedData := formattedData s;
     conversationHistory := slice_last10 (conversationHistory s ++ [entry t r c]);
     createdAt := createdAt s; lastAccessed := t |}.

(** One event of the process that touches the world: an operation of the
    session manager, the sweep of the timer, time passing, a request to the
    capability. Every handler is a sequence of such events ([updateSession]
    is exported by the session manager and never called). *)
Inductive event : World -> World -> Prop :=
| ev_store sessionId a wi f w : event w (snd (storeAnalysis sessionId a wi f w))
| ev_get sessionId w : event w (snd (getAnalysis sessionId w))
| ev_append sessionId r c w : event w (snd (addToConversationHistory sessionId r c w))
| ev_delete sessionId w : event w (snd (deleteSession sessionId w))
| ev_sweep w : event w (snd (sweep w))
| ev_advance d w : event w (snd (advance d w))
| ev_invoke cap c w : event w (snd (invoke cap c w)).

(** The worlds the process can be in: it starts without sessions. *)
Inductive reachable : World -> Prop :=
| reach_start t : reachable (empty_world t)
| reach_event w w' : reachable w -> event w w' -> reachable w'.

(** A run of appends to one session, [d] milliseconds after the previous
    event each. *)
Fixpoint appends (sessionId : jsstring) (es : list (Z * jsstring * value)) : M unit :=
  match es with
  | [] => ret tt
  | (d, r, c) :: es' =>
      advance d ;; addToConversationHistory sessionId r c ;; appends sessionId es'
  end.

(** The entries such a run pushes when it starts at time [t]. *)
Fixpoint entries (t : Z) (es : list (Z * jsstring * value)) : list Entry :=
  match es with
  | [] => []
  | (d, r, c) :: es' => entry (t + d) r c :: entries (t + d) es'
  end.

Definition example_id : jsstring := str "3f1c9a52-7d1e-4b0a-9c57-2f6f0f5d8a11".

Definition oat_crisp : value :=
  VObj [ (str "productName", VStr (str "Oat Crisp"));
         (str "ingredients", VArr [ VStr (str "oats"); VStr (str "sugar") ]) ].

(** A world with one session, created at time 1000. *)
Definition one_session : World :=
  snd (storeAnalysis example_id oat_crisp default_webInfo VNull (empty_world 1000)).

Definition twelve_messages : list (Z * jsstring * value) :=
  map (fun n : Z => (n, if Z.even n then str "user" else str "assistant",
                     VNum (num n)))
      [1; 2; 3; 4; 5; 6; 7; 8; 9; 10; 11; 12]%Z.

(** The session object [storeAnalysis] builds at time [t]. *)
Definition fresh_session (t : Z) (a wi f : value) : Session :=
  {| analysis := a; webInfo := default_null wi; formattedData := default_null f;
     conversationHistory := []; createdAt := t; lastAccessed := t |}.


(** What every stage does with the text of a reply: clean-up, then
    [JSON.parse]. *)
Definition coerce (text : jsstring) : option value := JSON_parse (clean_markdown text).

(** The text [t] inside a code fence with language tag [tag]. *)
Definition fenced (tag t : jsstring) : jsstring :=
  str "```" ++ tag ++ LF :: t ++ LF :: str "```".


(** The world after a request to the capability was awaited. *)
Definition after_call (cap : Capability) (c : CapCall) (w : World) : World :=
  {| sessions := sessions w; objects := objects w;
     clock := (clock w + latency cap c)%Z; calls := calls w ++ [c] |}.

(** A capability that answers every request with the same text, after a
    second. *)
Definition always (text : jsstring) : Capability :=
  {| reply := fun _ => Content text; latency := fun _ => 1000%Z |}.

(** A capability that rejects every request. *)
Definition unavailable : Capability :=
  {| reply := fun _ => Failed (CapabilityError (str "429 Too Many Requests"));
     latency := fun _ => 50%Z |}.

(** The outcome of the Extract stage as a function of the reply. *)
Definition extract_outcome (r : CapReply) : AnalysisResult :=
  let failed e := AnalysisFailed (VStr (str "Failed to analyze image")) (MessageOf e) in
  match r with
  | Failed e => failed e
  | Content text =>
      match coerce text with
      | None => failed SyntaxError
      | Some v =>
          match get v (str "isError"), get v (str "error") with
          | Some isError, Some error =>
              if truthy isError || truthy error
              then AnalysisFailed
                     (js_or error (VStr (str "Failed to analyze the food label")))
                     (Text (str "The model could not process the image as a food label"))
              else AnalysisOk v
          | _, _ => failed TypeError
          end
      end
  end.

(** The decoded value declares itself an error: [isError] is truthy, or
    [error] is (a non-empty string is). *)
Definition error_sentinel (v : value) : Prop :=
  truthy (get_opt v (str "isError")) = true \/ truthy (get_opt v (str "error")) = true.

(** An upload that passes the file filter and the size limit. *)
Definition accepted (f : File) : Prop :=
  includes SUPPORTED_IMAGE_TYPES (mimetype f) = true
  /\ N.of_nat (length (buffer f)) <= fileSize.

Definition quote (s : string) : jsstring := DQUOTE :: str s ++ [DQUOTE].

(** The reply the prompt of the Extract stage asks for when the image is no
    food label. *)
Definition not_a_label : jsstring :=
  str "{" ++ quote "error" ++ str ": " ++ quote "Unable to process the image."
      ++ str ", " ++ quote "isError" ++ str ": true}".

Definition png : File :=
  {| mimetype := str "image/png"; buffer := [Byte.x89; Byte.x50; Byte.x4e; Byte.x47] |}.

(** The outcome of the Enrich stage as a function of the reply. *)
Definition enrich_outcome (r : CapReply) : SearchResult :=
  match r with
  | Content text =>
      match coerce text with
      | Some webInfo => {| search_success := true; search_webInfo := webInfo |}
      | None => {| search_success := false; search_webInfo := search_fallback |}
      end
  | Failed _ => {| search_success := false; search_webInfo := search_fallback |}
  end.

(** The request the Enrich stage sends for a product name and ingredients:
    none when the ingredients are no list, or the name or one of the first
    ten ingredients has no string. *)
Definition enrich_request (productName ingredients : value) : option CapCall :=
  match ingredients with
  | VArr items =>
      if has_string productName && forallb has_string (take 10 items)
      then Some (EnrichCall productName (take 10 items))
      else None
  | _ => None
  end.

(** The request of the Enrich stage as the handler of [POST /api/analyze]
    calls it for the extraction [a]. *)
Definition enrich_request_of (a : value) : option CapCall :=
  enrich_request (js_or (get_opt a (str "productName")) (VStr (str "Unknown Product")))
                 (js_or (get_opt a (str "ingredients")) (VArr [])).

(** The Enrich stage failed: its result is marked unsuccessful. *)
Definition enrichment_failed (cap : Capability) (a : value) : Prop :=
  match enrich_request_of a with
  | Some call => search_success (enrich_outcome (reply cap call)) = false
  | None => True
  end.

(** The world in which the Summarize stage starts after a failed Enrich
    stage. *)
Definition after_enrichment (cap : Capability) (f : File) (a : value) (w : World) : World :=
  let w1 := after_call cap (ExtractCall (mimetype f) (base64 (buffer f))) w in
  match enrich_request_of a with
  | Some call => after_call cap call w1
  | None => w1
  end.

(** A capability that answers the extraction request with [text] and
    rejects every other request. *)
Definition extraction_only (text : jsstring) : Capability :=
  {| reply := fun c => match c with
                       | ExtractCall _ _ => Content text
                       | _ => Failed (CapabilityError (str "503 Service Unavailable"))
                       end;
     latency := fun _ => 800%Z |}.

(** An extraction whose [ingredients] is not a list:
    [{"productName": "Oat Crisp", "ingredients": false}]. *)
Definition no_ingredients : jsstring :=
  str "{" ++ quote "productName" ++ str ": " ++ quote "Oat Crisp" ++ str ", "
      ++ quote "ingredients" ++ str ": false}".

(** [{"productName": "Oat Crisp", "ingredients": ["oats", "sugar"]}] *)
Definition oat_crisp_text : jsstring :=
  str "{" ++ quote "productName" ++ str ": " ++ quote "Oat Crisp" ++ str ", "
      ++ quote "ingredients" ++ str ": [" ++ quote "oats" ++ str ", " ++ quote "sugar"
      ++ str "]}".

(** An extraction whose product name is an object with a field [toString]:
    [{"productName": {"toString": 0}, "ingredients": ["oats"]}]. *)
Definition odd_name : jsstring :=
  str "{" ++ quote "productName" ++ str ": {" ++ quote "toString" ++ str ": 0}, "
      ++ quote "ingredients" ++ str ": [" ++ quote "oats" ++ str "]}".

(** A computation only ever adds requests to the log. *)
Definition extends {A} (m : M A) : Prop :=
  forall w, exists rest, calls (snd (m w)) = calls w ++ rest.

Definition bmp : File := {| mimetype := str "image/bmp"; buffer := [Byte.x42; Byte.x4d] |}.

Definition empty_png : File := {| mimetype := str "image/png"; buffer := [] |}.

(** What the Respond stage resolves to when the reply arrived: the decoded
    value, or the text as a plain answer. *)
Definition respond_value (text : jsstring) : value :=
  match coerce text with
  | Some v => v
  | None => plain_answer (clean_markdown text)
  end.

(** [{"answer": "Yes, oats and sugar are vegan.", "suggestedQuestions": []}] *)
Definition vegan_answer : jsstring :=
  str "{" ++ quote "answer" ++ str ": " ++ quote "Yes, oats and sugar are vegan."
      ++ str ", " ++ quote "suggestedQuestions" ++ str ": []}".

(** Every session object holds at most ten entries. *)
Definition bounded (w : World) : Prop :=
  Forall (fun s => (length (conversationHistory s) <= 10)%nat) (objects w).

(** The world after [storeAnalysis]. *)
Definition stored (sessionId : jsstring) (a wi f : value) (w : World) : World :=
  {| sessions := <[sessionId := length (objects w)]> (sessions w);
     objects := objects w ++ [fresh_session (clock w) a wi f];
     clock := clock w; calls := calls w |}.

(** ** [GET /api/session/:sessionId] *)




(** ** More vocabulary *)

(** Every bound id is bound to a location that holds a session object. *)
Definition well_formed (w : World) : Prop :=
  forall sessionId l, sessions w !! sessionId = Some l -> (l < length (objects w))%nat.

(** The test of the chat handler on [req.body.message]: a string that is
    not empty after [trim]. *)
Definition valid_message (message : value) : bool :=
  match message with
  | VStr question => match trim question with [] => false | _ => true end
  | _ => false
  end.

(** The world with another session object at [l]. *)
Definition with_object (l : nat) (s : Session) (w : World) : World :=
  {| sessions := sessions w; objects := <[l := s]> (objects w);
     clock := clock w; calls := calls w |}.


(** The letters the machine has left to match all satisfy [P]. *)
Definition literal_inv (P : N -> bool) (l : lexer) : Prop :=
  match snd l with
  | LLiteral rest t => forallb P rest = true
  | _ => True
  end.

(** * Properties *)

(** ** Session store *)

Lemma slice_last10_short (h : list Entry) :
  (length h <= 10)%nat -> slice_last10 h = h.
Proof.
  intros H. unfold slice_last10.
  replace (length h - 10)%nat with 0%nat by lia. reflexivity.
Qed.

Lemma slice_last10_length (h : list Entry) : (length (slice_last10 h) <= 10)%nat.
Proof. unfold slice_last10. rewrite length_drop. lia. Qed.

(** Cutting, pushing and cutting again keeps the last ten of everything
    pushed. *)
Lemma slice_last10_push (h es : list Entry) :
  slice_last10 (slice_last10 h ++ es) = slice_last10 (h ++ es).
Proof.
  unfold slice_last10.
  rewrite !length_app, length_drop, !drop_app, !drop_drop, !length_drop.
  f_equal; f_equal; lia.
Qed.

Ltac run_store :=
  unfold storeAnalysis, getAnalysis, addToConversationHistory, deleteSession, hasSession,
    sweep, sessions_get, sessions_set, sessions_delete, alloc, deref, update, Date_now,
    advance, bind, ret, throw, has;
  simpl.

Lemma addToConversationHistory_bound (w : World) (sessionId r : jsstring) (c : value)
    (l : nat) (s : Session) :
  sessions w !! sessionId = Some l ->
  objects w !! l = Some s ->
  addToConversationHistory sessionId r c w =
    (Ok (Some l),
     {| sessions := sessions w;
        objects := <[l := appended (clock w) r c s]> (objects w);
        clock := clock w; calls := calls w |}).
Proof.
  intros Hs Ho.
  assert (Hl : (l < length (objects w))%nat) by (eapply lookup_lt_Some; eassumption).
  run_store. rewrite Hs. repeat (rewrite Ho; simpl).
  rewrite list_lookup_insert_eq by assumption. simpl.
  rewrite length_app. simpl.
  destruct (10 <? length (conversationHistory s) + 1)%nat eqn:Hcap; simpl.
  - rewrite list_lookup_insert_eq by assumption.
    rewrite list_lookup_insert_eq by (rewrite length_insert; assumption).
    rewrite !list_insert_insert_eq, insert_id by assumption.
    reflexivity.
  - rewrite list_lookup_insert_eq by assumption.
    rewrite !list_insert_insert_eq, insert_id by assumption.
    unfold appended, set_lastAccessed, set_conversationHistory. simpl.
    rewrite slice_last10_short; [ reflexivity |].
    rewrite length_app. simpl. apply Nat.ltb_ge in Hcap. lia.
Qed.

Lemma addToConversationHistory_unbound (w : World) (sessionId r : jsstring) (c : value) :
  sessions w !! sessionId = None ->
  addToConversationHistory sessionId r c w = (Ok None, w).
Proof. intros Hs. run_store. rewrite Hs. reflexivity. Qed.

Lemma update_bounded (w : World) (l : nat) (f : Session -> Session) :
  (forall s, (length (conversationHistory s) <= 10)%nat ->
             (length (conversationHistory (f s)) <= 10)%nat) ->
  bounded w -> bounded (snd (update l f w)).
Proof.
  intros Hf Hb. unfold bounded, update. simpl.
  destruct (objects w !! l) as [s|] eqn:Ho; [| exact Hb ].
  apply Forall_insert; [ exact Hb |].
  apply Hf. eapply (proj1 (Forall_lookup _ _) Hb). exact Ho.
Qed.

Lemma event_bounded (w w' : World) : bounded w -> event w w' -> bounded w'.
Proof.
  intros Hb Hev. destruct Hev; try exact Hb.
  - unfold bounded. simpl. apply Forall_app. split; [ exact Hb |].
    constructor; [ simpl; lia | constructor ].
  - unfold getAnalysis, bind, sessions_get at 1. cbv beta iota.
    destruct (sessions w !! sessionId) as [l|]; [| exact Hb ].
    destruct (has (objects w !! l)); [| exact Hb ].
    apply (update_bounded w l (set_lastAccessed (clock w))); [| exact Hb ].
    intros s Hs. exact Hs.
  - destruct (sessions w !! sessionId) as [l|] eqn:Hs.
    + destruct (objects w !! l) as [s|] eqn:Ho.
      * rewrite (addToConversationHistory_bound w sessionId r c l s Hs Ho).
        unfold bounded. simpl. apply Forall_insert; [ exact Hb |].
        apply slice_last10_length.
      * unfold addToConversationHistory, bind, sessions_get at 1. cbv beta iota.
        rewrite Hs, Ho. exact Hb.
    + rewrite addToConversationHistory_unbound by exact Hs. exact Hb.
  - unfold invoke. destruct (reply cap c); exact Hb.
Qed.

Lemma reachable_bounded (w : World) : reachable w -> bounded w.
Proof.
  induction 1 as [t|w w' _ IH Hev].
  - constructor.
  - eapply event_bounded; eassumption.
Qed.

(** C1. In every world the process can reach, every session holds at most
    ten entries; and whatever is appended to it from there, the appends
    succeed and the history afterwards is the last ten of the old entries
    followed by the new ones, in that order: the oldest go first, and the
    history never holds more than ten. *)
Theorem history_bounded_fifo (w : World) (sessionId : jsstring) (s : Session)
    (es : list (Z * jsstring * value)) :
  reachable w ->
  session_of w sessionId = Some s ->
  (length (conversationHistory s) <= 10)%nat
  /\ exists w' s',
       appends sessionId es w = (Ok tt, w')
       /\ session_of w' sessionId = Some s'
       /\ conversationHistory s'
          = drop (length (conversationHistory s ++ entries (clock w) es) - 10)%nat
                 (conversationHistory s ++ entries (clock w) es)
       /\ (length (conversationHistory s') <= 10)%nat.
Proof.
  intros Hreach Hses.
  assert (Hlen : (length (conversationHistory s) <= 10)%nat).
  { unfold session_of in Hses. destruct (sessions w !! sessionId) as [l|]; [| discriminate ].
    eapply (proj1 (Forall_lookup _ _) (reachable_bounded w Hreach)). exact Hses. }
  split; [ exact Hlen |]. clear Hreach.
  revert w s Hses Hlen. induction es as [|[[d r] c] es IH]; intros w s Hses Hlen.
  - exists w, s. rewrite app_nil_r. repeat split; try assumption.
    replace (length (conversationHistory s) - 10)%nat with 0%nat by lia. reflexivity.
  - unfold session_of in Hses.
    destruct (sessions w !! sessionId) as [l|] eqn:Hs; [| discriminate ].
    rename Hses into Ho.
    simpl appends. unfold bind at 1. simpl.
    unfold bind at 1.
    set (w1 := {| sessions := sessions w; objects := objects w;
                  clock := (clock w + d)%Z; calls := calls w |}).
    rewrite (addToConversationHistory_bound w1 sessionId r c l s Hs Ho).
    set (w2 := {| sessions := sessions w1;
                  objects := <[l := appended (clock w1) r c s]> (objects w1);
                  clock := clock w1; calls := calls w1 |}).
    assert (Hl : (l < length (objects w))%nat) by (eapply lookup_lt_Some; eassumption).
    destruct (IH w2 (appended (clock w1) r c s)) as (w' & s' & Hrun & Hses & Hh & Hb).
    + unfold session_of. simpl sessions. rewrite Hs. simpl.
      apply list_lookup_insert_eq. exact Hl.
    + simpl. apply slice_last10_length.
    + exists w', s'. repeat split; try assumption.
      change (conversationHistory s'
              = slice_last10 (conversationHistory s
                              ++ entry (clock w + d) r c :: entries (clock w + d) es)).
      change (conversationHistory s'
              = slice_last10 (slice_last10 (conversationHistory s ++ [entry (clock w + d) r c])
                              ++ entries (clock w + d) es)) in Hh.
      rewrite Hh, slice_last10_push, <- app_assoc. reflexivity.
Qed.

Lemma history_bounded_fifo_witness :
  exists w' s',
    appends example_id twelve_messages one_session = (Ok tt, w')
    /\ session_of w' example_id = Some s'
    /\ conversationHistory s' = drop 2 (entries 1000 twelve_messages)
    /\ (length (conversationHistory s') <= 10)%nat.
Proof.
  apply (history_bounded_fifo one_session example_id
           {| analysis := oat_crisp; webInfo := default_webInfo; formattedData := VNull;
              conversationHistory := []; createdAt := 1000; lastAccessed := 1000 |}
           twelve_messages).
  - apply (reach_event (empty_world 1000)); [ apply reach_start |].
    apply (ev_store example_id oat_crisp default_webInfo VNull).
  - reflexivity.
Defined.

Lemma storeAnalysis_run (w : World) (sessionId : jsstring) (a wi f : value) :
  storeAnalysis sessionId a wi f w = (Ok (length (objects w)), stored sessionId a wi f w).
Proof. reflexivity. Qed.

Lemma session_of_stored (w : World) (sessionId : jsstring) (a wi f : value) :
  session_of (stored sessionId a wi f w) sessionId = Some (fresh_session (clock w) a wi f).
Proof.
  unfold session_of. simpl. rewrite lookup_insert_eq.
  rewrite lookup_app_r by lia. rewrite Nat.sub_diag. reflexivity.
Qed.

(** C10. [storeAnalysis] never looks at what the id is bound to: it always
    succeeds, allocates a new session object with an empty history and the
    current time as [createdAt], and binds the id to it, replacing whatever
    session the id stood for; the other ids keep their sessions. *)
Theorem storeAnalysis_upsert (w : World) (sessionId : jsstring) (a wi f : value) :
  exists w',
    storeAnalysis sessionId a wi f w = (Ok (length (objects w)), w')
    /\ sessions w' = <[sessionId := length (objects w)]> (sessions w)
    /\ objects w' = objects w ++ [fresh_session (clock w) a wi f]
    /\ session_of w' sessionId = Some (fresh_session (clock w) a wi f)
    /\ (forall other l, other <> sessionId ->
          sessions w !! other = Some l -> (l < length (objects w))%nat ->
          session_of w' other = session_of w other).
Proof.
  exists (stored sessionId a wi f w). split; [ apply storeAnalysis_run |].
  split; [ reflexivity |]. split; [ reflexivity |]. split.
  - apply session_of_stored.
  - intros other l Hne Hb Hl. unfold session_of. simpl.
    rewrite lookup_insert_ne by congruence. rewrite Hb.
    apply lookup_app_l. exact Hl.
Qed.

Lemma storeAnalysis_upsert_witness :
  let w := snd (appends example_id twelve_messages
                  (stored (str "another") VNull VNull VNull one_session)) in
  (option_map (fun s => length (conversationHistory s)) (session_of w example_id)
   = Some 10%nat)
  /\ exists w',
       storeAnalysis example_id VNull VNull VNull w = (Ok 2%nat, w')
       /\ session_of w' example_id = Some (fresh_session 1078 VNull VNull VNull)
       /\ session_of w' (str "another") = session_of w (str "another").
Proof.
  intros w. split; [ vm_compute; reflexivity |].
  destruct (storeAnalysis_upsert w example_id VNull VNull VNull)
    as (w' & Hrun & _ & _ & Hs & Hothers).
  exists w'. split; [ exact Hrun |]. split; [ exact Hs |].
  apply (Hothers (str "another") 1%nat);
    [ discriminate | vm_compute; reflexivity | vm_compute; lia ].
Defined.

(** C2 as stated fails: a session stored at time 1000 and not touched for
    one millisecond more than the thirty minutes is expired, the sweep has
    not run, and [getAnalysis] still returns it. *)
Lemma getAnalysis_expired_returned :
  let w := snd (advance (SESSION_TIMEOUT + 1) one_session) in
  sessions w !! example_id = Some 0%nat
  /\ expired w (clock w) 0 = true
  /\ fst (getAnalysis example_id w) = Ok (Some 0%nat).
Proof. vm_compute. repeat split; reflexivity. Qed.

(** C2, amended. [getAnalysis] returns absent exactly for the ids that stand
    for no session (never stored, or removed by a delete or by the sweep): it
    does not compare [lastAccessed] with the clock. A successful
    [getAnalysis] sets [lastAccessed] to the current time. Once the sweep has
    run, the ids of the sessions that were expired stand for no session, so
    [getAnalysis] returns absent for them. *)
Theorem getAnalysis_absent_iff_unbound (w : World) (sessionId : jsstring) :
  (fst (getAnalysis sessionId w) = Ok None <-> session_of w sessionId = None)
  /\ (forall l s,
        sessions w !! sessionId = Some l -> objects w !! l = Some s ->
        exists w',
          getAnalysis sessionId w = (Ok (Some l), w')
          /\ session_of w' sessionId = Some (set_lastAccessed (clock w) s))
  /\ (forall l,
        sessions w !! sessionId = Some l -> expired w (clock w) l = true ->
        exists w1,
          sweep w = (Ok tt, w1)
          /\ session_of w1 sessionId = None
          /\ getAnalysis sessionId w1 = (Ok None, w1)).
Proof.
  split; [| split ].
  - unfold session_of. run_store.
    destruct (sessions w !! sessionId) as [l|] eqn:Hs; [| tauto ].
    destruct (objects w !! l) as [s|] eqn:Ho; simpl; [| tauto ].
    repeat (rewrite Ho; simpl). split; discriminate.
  - intros l s Hs Ho.
    assert (Hl : (l < length (objects w))%nat) by (eapply lookup_lt_Some; eassumption).
    eexists. split.
    + run_store. rewrite Hs. repeat (rewrite Ho; simpl). reflexivity.
    + unfold session_of. simpl. rewrite lookup_insert_eq.
      apply list_lookup_insert_eq. exact Hl.
  - intros l Hs He. eexists. split; [ reflexivity |].
    assert (Hnone : filter (fun p : jsstring * nat => expired w (clock w) p.2 = false)
                      (sessions w) !! sessionId = None).
    { apply map_lookup_filter_None. right. intros l' Hs'. simpl.
      rewrite Hs in Hs'. injection Hs' as <-. rewrite He. discriminate. }
    split.
    + unfold session_of. simpl. rewrite Hnone. reflexivity.
    + run_store. rewrite Hnone. reflexivity.
Qed.

Lemma getAnalysis_absent_iff_unbound_witness :
  let w := snd (advance (SESSION_TIMEOUT + 1) one_session) in
  (fst (getAnalysis (str "unknown") w) = Ok None)
  /\ (exists w', getAnalysis example_id w = (Ok (Some 0%nat), w')
                 /\ option_map lastAccessed (session_of w' example_id) = Some 1801001%Z)
  /\ (exists w1, sweep w = (Ok tt, w1) /\ getAnalysis example_id w1 = (Ok None, w1)).
Proof.
  intros w.
  destruct (getAnalysis_absent_iff_unbound w (str "unknown")) as ((_ & Habs) & _ & _).
  destruct (getAnalysis_absent_iff_unbound w example_id) as (_ & Hget & Hsweep).
  split; [| split ].
  - apply Habs. vm_compute. reflexivity.
  - destruct (Hget 0%nat (fresh_session 1000 oat_crisp default_webInfo VNull))
      as (w' & Hrun & Hs); [ vm_compute; reflexivity | reflexivity |].
    exists w'. split; [ exact Hrun |]. rewrite Hs. reflexivity.
  - destruct (Hsweep 0%nat) as (w1 & Hrun & _ & Hg);
      [ vm_compute; reflexivity | vm_compute; reflexivity |].
    exists w1. split; assumption.
Defined.

(** [deleteSession] of the session manager itself returns whether the id was
    bound and leaves it unbound. *)
Lemma deleteSession_bool (w : World) (sessionId : jsstring) :
  exists w',
    deleteSession sessionId w = (Ok (has (sessions w !! sessionId)), w')
    /\ sessions w' !! sessionId = None
    /\ (forall other, other <> sessionId -> sessions w' !! other = sessions w !! other).
Proof.
  eexists. split; [ reflexivity |]. simpl. split.
  - apply lookup_delete_eq.
  - intros other Hne. apply lookup_delete_ne. congruence.
Qed.

(** C5, the code at the failing input. The application module does not bind
    [deleteSession], so the handler of [DELETE /api/session/:sessionId]
    throws a [ReferenceError] before anything is deleted: for every id and
    every world the request is answered by the error middleware and the
    session, if there is one, stays. *)
Theorem delete_session_reference_error (w : World) (sessionId : jsstring) :
  delete_handler sessionId w = (Thrown (ReferenceError "deleteSession"), w)
  /\ delete_session sessionId w
     = (Ok (Failure 500 (VStr (str "Internal server error"))
              (Masked (ReferenceError "deleteSession"))), w).
Proof. split; reflexivity. Qed.

Example delete_session_keeps_session :
  delete_session example_id one_session
  = (Ok (Failure 500 (VStr (str "Internal server error"))
           (Masked (ReferenceError "deleteSession"))), one_session)
  /\ sessions one_session !! example_id = Some 0%nat.
Proof. split; vm_compute; reflexivity. Qed.

(** ** Strings and the clean-up of replies *)

Lemma jsstring_eqb_eq (a b : jsstring) : jsstring_eqb a b = true <-> a = b.
Proof.
  revert b. induction a as [|c a IH]; intros [|d b]; simpl; try (split; congruence).
  rewrite andb_true_iff, N.eqb_eq, IH. split.
  - intros [-> ->]. reflexivity.
  - intros [= -> ->]. split; reflexivity.
Qed.

Lemma startsWith_app (p s : jsstring) : startsWith (p ++ s) p = true.
Proof. induction p as [|c p IH]; simpl; [ reflexivity |]. rewrite N.eqb_refl. exact IH. Qed.

Lemma startsWith_trans (s p q : jsstring) :
  startsWith s (p ++ q) = true -> startsWith s p = true.
Proof.
  revert s. induction p as [|c p IH]; intros s; [ reflexivity |].
  destruct s as [|d s]; [ discriminate |]. cbn [app startsWith].
  rewrite !andb_true_iff. intros [Hc Hs]. split; [ exact Hc | apply IH; exact Hs ].
Qed.




Lemma trimEnd_snoc (s : jsstring) (c : N) :
  trimEnd (s ++ [c]) = if isWhiteSpace c then trimEnd s else s ++ [c].
Proof.
  unfold trimEnd. rewrite rev_app_distr. simpl.
  destruct (isWhiteSpace c); [ reflexivity |].
  simpl. rewrite rev_involutive. reflexivity.
Qed.


(** ** The lexer and white space *)










Lemma lex_run_snoc (s : jsstring) (c : N) (l : lexer) :
  lex_run l (s ++ [c])
  = match lex_run l s with
    | Some l1 => lex_step l1 c
    | None => None
    end.
Proof.
  revert l. induction s as [|d s IH]; simpl; intros l.
  - destruct (lex_step l c); reflexivity.
  - destruct (lex_step l d); [ apply IH | reflexivity ].
Qed.








(** ** Coercion of replies *)


Lemma clean_markdown_plain (t : jsstring) :
  startsWith t (str "```") = false -> clean_markdown t = t.
Proof.
  intros H. unfold clean_markdown. rewrite H.
  destruct (startsWith t (str "```json")) eqn:E; [| reflexivity ].
  apply (startsWith_trans t (str "```") (str "json")) in E. congruence.
Qed.








(** ** The stages *)

Ltac run_stage :=
  unfold analyzeImage, searchProductInfo, generateFormattedSummary, handleFollowUp,
    try_catch, bind, invoke, parse, prop, or_throw, ret, throw;
  simpl.

(** C8 as stated fails: a reply of plain text inside a fence is not
    structured, and the answer is the text inside the fence, not the reply
    as it was received. *)
Lemma handleFollowUp_fenced_text_not_verbatim :
  let text := fenced [] (str "Yes, it is vegan.") in
  coerce text = None
  /\ fst (handleFollowUp (always text) oat_crisp default_webInfo (str "is this vegan?") []
            (empty_world 0))
     = Ok (FollowUpOk (plain_answer (str "Yes, it is vegan.")))
  /\ str "Yes, it is vegan." <> text.
Proof. vm_compute. repeat split; try reflexivity. discriminate. Qed.

(** C8, amended. When the reply cannot be parsed, the stage succeeds: the
    answer is the text of the reply after the clean-up of code fences, which
    is the reply itself, verbatim, whenever the reply does not start with a
    fence, and the suggested questions are the three fixed ones. When the
    request to the capability is rejected, the stage fails with the fixed
    error and no answer. In both cases the request was sent once. *)
Theorem handleFollowUp_fallbacks (cap : Capability) (a wi : value) (question : jsstring)
    (h : list Entry) (w : World) :
  let call := RespondCall a wi h question in
  (forall text,
      reply cap call = Content text -> coerce text = None ->
      handleFollowUp cap a wi question h w
      = (Ok (FollowUpOk
               (VObj [ (str "answer", VStr (clean_markdown text));
                       (str "suggestedQuestions",
                         VArr [ VStr (str "What are the main ingredients?");
                                VStr (str "Is this product healthy?");
                                VStr (str "What are the allergens?") ]) ])),
         after_call cap call w)
      /\ (startsWith text (str "```") = false -> clean_markdown text = text))
  /\ (forall e,
        reply cap call = Failed e ->
        handleFollowUp cap a wi question h w
        = (Ok (FollowUpFailed (str "Failed to process follow-up question") (MessageOf e)),
           after_call cap call w)).
Proof.
  intros call. split.
  - intros text Hr Hp. split; [| apply clean_markdown_plain ].
    run_stage. fold call. rewrite Hr. unfold coerce in Hp. rewrite Hp. reflexivity.
  - intros e Hr. run_stage. fold call. rewrite Hr. reflexivity.
Qed.

Lemma handleFollowUp_fallbacks_witness :
  (fst (handleFollowUp (always (str "Yes, it is vegan.")) oat_crisp default_webInfo
          (str "is this vegan?") [] (empty_world 0))
   = Ok (FollowUpOk (plain_answer (str "Yes, it is vegan."))))
  /\ fst (handleFollowUp unavailable oat_crisp default_webInfo
            (str "is this vegan?") [] (empty_world 0))
     = Ok (FollowUpFailed (str "Failed to process follow-up question")
             (MessageOf (CapabilityError (str "429 Too Many Requests")))).
Proof.
  split.
  - destruct (handleFollowUp_fallbacks (always (str "Yes, it is vegan.")) oat_crisp
                default_webInfo (str "is this vegan?") [] (empty_world 0)) as [Hparse _].
    destruct (Hparse (str "Yes, it is vegan.")) as [Hrun Hverbatim];
      [ reflexivity | vm_compute; reflexivity |].
    rewrite Hrun, Hverbatim by reflexivity. reflexivity.
  - destruct (handleFollowUp_fallbacks unavailable oat_crisp
                default_webInfo (str "is this vegan?") [] (empty_world 0)) as [_ Hrej].
    rewrite (Hrej (CapabilityError (str "429 Too Many Requests"))) by reflexivity.
    reflexivity.
Defined.

Lemma analyzeImage_invokes (cap : Capability) (imageBase64 mimeType : jsstring) (w : World) :
  imageBase64 <> [] -> startsWith mimeType (str "image/") = true ->
  analyzeImage cap imageBase64 mimeType w
  = (Ok (extract_outcome (reply cap (ExtractCall mimeType imageBase64))),
     after_call cap (ExtractCall mimeType imageBase64) w).
Proof.
  intros Hb Hm. destruct imageBase64 as [|c b]; [ congruence |].
  run_stage. rewrite Hm. simpl.
  unfold extract_outcome, coerce.
  destruct (reply cap (ExtractCall mimeType (c :: b))) as [m|text]; [ reflexivity |].
  destruct (JSON_parse (clean_markdown text)) as [v|]; [| reflexivity ]. simpl.
  destruct v; try reflexivity; simpl;
    match goal with
    | |- context [truthy ?a || truthy ?b] => destruct (truthy a || truthy b); reflexivity
    | _ => idtac
    end.
Qed.

(** Without a payload, or with a media type outside [image/], the stage
    fails before any request is sent. *)
Lemma analyzeImage_rejects (cap : Capability) (imageBase64 mimeType : jsstring) (w : World) :
  imageBase64 = [] \/ startsWith mimeType (str "image/") = false ->
  exists e,
    analyzeImage cap imageBase64 mimeType w
    = (Ok (AnalysisFailed (VStr (str "Failed to analyze image")) (MessageOf e)), w).
Proof.
  intros [->|Hm]; run_stage.
  - eexists. reflexivity.
  - destruct imageBase64; simpl; rewrite ?Hm; eexists; reflexivity.
Qed.

Lemma includes_supported (mime : jsstring) :
  includes SUPPORTED_IMAGE_TYPES mime = true -> startsWith mime (str "image/") = true.
Proof.
  unfold includes, SUPPORTED_IMAGE_TYPES. cbn [existsb].
  rewrite !orb_true_iff, !jsstring_eqb_eq.
  intros [->|[->|[->|[->|H]]]]; try reflexivity. discriminate.
Qed.

Lemma base64_nonempty (b : list Byte.byte) : b <> [] -> base64 b <> [].
Proof. destruct b as [|x [|y [|z r]]]; simpl; congruence. Qed.

Lemma error_sentinel_nonempty_error (v : value) (c : N) (s : jsstring) :
  get_opt v (str "error") = VStr (c :: s) -> error_sentinel v.
Proof. intros H. right. rewrite H. reflexivity. Qed.

Lemma extract_outcome_sentinel (text : jsstring) (v : value) :
  coerce text = Some v -> error_sentinel v ->
  extract_outcome (Content text)
  = AnalysisFailed (js_or (get_opt v (str "error"))
                      (VStr (str "Failed to analyze the food label")))
      (Text (str "The model could not process the image as a food label")).
Proof.
  intros Hc Hs. unfold extract_outcome. rewrite Hc.
  unfold error_sentinel in Hs.
  destruct v; try (destruct Hs as [Hs|Hs]; discriminate Hs).
  cbn [get get_opt] in *. apply orb_true_iff in Hs. rewrite Hs. reflexivity.
Qed.

Lemma post_analyze_accepted (cap : Capability) (sessionId : jsstring) (f : File) :
  accepted f -> post_analyze cap sessionId (Some f) = analyze_handler cap sessionId (Some f).
Proof.
  intros [Hi Hs]. unfold post_analyze. rewrite Hi. simpl.
  destruct (N.ltb_spec fileSize (N.of_nat (length (buffer f)))); [ lia | reflexivity ].
Qed.

(** C3. Whenever the reply to the extraction request decodes to a value
    that declares itself an error, the analysis request is answered with a
    failure, no session is stored and no session object is created; when the
    upload was accepted and carries data, the status is 500, the error is the
    one the value carries (or the fixed one), and no further stage ran. *)
Theorem extraction_error_is_terminal (cap : Capability) (sessionId : jsstring) (f : File)
    (w : World) (text : jsstring) (v : value) :
  let call := ExtractCall (mimetype f) (base64 (buffer f)) in
  reply cap call = Content text ->
  coerce text = Some v ->
  error_sentinel v ->
  exists status error details w',
    post_analyze cap sessionId (Some f) w = (Ok (Failure status error details), w')
    /\ sessions w' = sessions w
    /\ objects w' = objects w
    /\ (accepted f -> buffer f <> [] ->
        status = 500%Z
        /\ error = js_or (get_opt v (str "error"))
                     (VStr (str "Failed to analyze the food label"))
        /\ details = Text (str "The model could not process the image as a food label")
        /\ w' = after_call cap call w).
Proof.
  intros call Hr Hc Hs.
  unfold post_analyze.
  destruct (includes SUPPORTED_IMAGE_TYPES (mimetype f)) eqn:Hi; simpl.
  2: { eexists _, _, _, _. do 3 (split; [ reflexivity |]).
       intros [Hi' _]. congruence. }
  destruct (N.ltb_spec fileSize (N.of_nat (length (buffer f)))) as [Hbig|Hsize].
  { eexists _, _, _, _. do 3 (split; [ reflexivity |]).
    intros [_ Hle]. lia. }
  unfold analyze_handler, try_catch, bind at 1.
  destruct (buffer f) as [|x b] eqn:Hb.
  - destruct (analyzeImage_rejects cap (base64 []) (mimetype f) w) as [e ->];
      [ left; reflexivity |].
    eexists _, _, _, _. do 3 (split; [ reflexivity |]). congruence.
  - rewrite analyzeImage_invokes;
      [| apply base64_nonempty; discriminate | apply includes_supported; exact Hi ].
    fold call. rewrite Hr.
    rewrite (extract_outcome_sentinel text v Hc Hs).
    eexists _, _, _, _. do 3 (split; [ reflexivity |]). intros _ _. repeat split.
Qed.

Lemma extraction_error_is_terminal_witness :
  exists w',
    post_analyze (always (fenced (str "json") not_a_label)) example_id (Some png)
      (empty_world 0)
    = (Ok (Failure 500 (VStr (str "Unable to process the image."))
             (Text (str "The model could not process the image as a food label"))), w')
    /\ sessions w' = ∅
    /\ calls w' = [ ExtractCall (str "image/png") (str "iVBORw==") ].
Proof.
  destruct (extraction_error_is_terminal (always (fenced (str "json") not_a_label))
              example_id png (empty_world 0) (fenced (str "json") not_a_label)
              (VObj [ (str "error", VStr (str "Unable to process the image."));
                      (str "isError", VBool true) ]))
    as (status & error & details & w' & Hrun & Hs & _ & Hacc).
  - reflexivity.
  - vm_compute. reflexivity.
  - left. reflexivity.
  - destruct Hacc as (-> & -> & -> & ->).
    + split; [ reflexivity | vm_compute; discriminate ].
    + discriminate.
    + exists (after_call (always (fenced (str "json") not_a_label))
                (ExtractCall (mimetype png) (base64 (buffer png))) (empty_world 0)).
      split; [| split; reflexivity ].
      rewrite Hrun. vm_compute. reflexivity.
Defined.

(** The Enrich stage sends its request when the ingredients are an array
    and the product name and the first ten ingredients have a string; with
    anything else the prompt cannot be built and the stage fails without a
    request. *)
Lemma searchProductInfo_run (cap : Capability) (productName ingredients : value) (w : World) :
  searchProductInfo cap productName ingredients w
  = match enrich_request productName ingredients with
    | Some call => (Ok (enrich_outcome (reply cap call)), after_call cap call w)
    | None => (Ok {| search_success := false; search_webInfo := search_fallback |}, w)
    end.
Proof.
  unfold enrich_request, searchProductInfo, interpolate, join.
  destruct (has_string productName);
    [| destruct ingredients; try reflexivity;
       destruct (forallb has_string (take 10 items)); reflexivity ].
  destruct ingredients; try reflexivity.
  destruct (forallb has_string (take 10 items)) eqn:Hjoin;
    cbn [andb]; run_stage; rewrite Hjoin; [| reflexivity ].
  unfold enrich_outcome, coerce.
  destruct (reply cap (EnrichCall productName (take 10 items))); [ reflexivity |].
  destruct (JSON_parse (clean_markdown text)); reflexivity.
Qed.

Lemma generateFormattedSummary_run (cap : Capability) (a wi : value) (w : World) :
  generateFormattedSummary cap a wi w
  = match reply cap (SummarizeCall a wi) with
    | Content text =>
        match coerce text with
        | Some data => (Ok data, after_call cap (SummarizeCall a wi) w)
        | None => summary_fallback a (after_call cap (SummarizeCall a wi) w)
        end
    | Failed _ => summary_fallback a (after_call cap (SummarizeCall a wi) w)
    end.
Proof.
  run_stage. unfold coerce.
  destruct (reply cap (SummarizeCall a wi)); [ reflexivity |].
  destruct (JSON_parse (clean_markdown text)); reflexivity.
Qed.

Lemma extract_outcome_ok (r : CapReply) (a : value) :
  extract_outcome r = AnalysisOk a ->
  get a (str "productName") = Some (get_opt a (str "productName"))
  /\ get a (str "ingredients") = Some (get_opt a (str "ingredients")).
Proof.
  unfold extract_outcome. destruct r as [m|text]; [ discriminate |].
  destruct (coerce text) as [v|]; [| discriminate ].
  destruct v; simpl; try discriminate;
    try (intros [= <-]; split; reflexivity).
  destruct (truthy _ || truthy _); [ discriminate |].
  intros [= <-]. split; reflexivity.
Qed.

(** What the code does by design when the Enrich stage fails: the
    application goes on to the Summarize stage with its fixed default as
    enrichment, and whenever that stage yields a summary the session is
    stored with the default. *)
Lemma enrichment_failure_degrades (cap : Capability) (sessionId : jsstring) (f : File)
    (w : World) (a data : value) (w3 : World) :
  accepted f -> buffer f <> [] ->
  extract_outcome (reply cap (ExtractCall (mimetype f) (base64 (buffer f)))) = AnalysisOk a ->
  enrichment_failed cap a ->
  generateFormattedSummary cap a default_webInfo (after_enrichment cap f a w) = (Ok data, w3) ->
  exists w',
    post_analyze cap sessionId (Some f) w
    = (Ok (Analyzed sessionId data analyze_suggestions), w')
    /\ session_of w' sessionId = Some (fresh_session (clock w3) a default_webInfo data).
Proof.
  intros Hacc Hb Hex Hfail Hsum.
  rewrite post_analyze_accepted by exact Hacc.
  unfold analyze_handler, try_catch, bind at 1.
  rewrite analyzeImage_invokes;
    [| apply base64_nonempty; exact Hb | apply includes_supported; apply Hacc ].
  rewrite Hex.
  destruct (extract_outcome_ok _ _ Hex) as [Hpn Hing].
  unfold bind at 1. unfold prop at 1. rewrite Hpn. simpl.
  unfold bind at 1. unfold prop at 1. rewrite Hing. simpl.
  unfold bind at 1. rewrite searchProductInfo_run.
  unfold enrichment_failed in Hfail. unfold after_enrichment in Hsum.
  assert (Hstore : forall w2,
             generateFormattedSummary cap a default_webInfo w2 = (Ok data, w3) ->
             exists w',
               (let (r, w'0) :=
                  (let* formattedData := generateFormattedSummary cap a default_webInfo in
                   storeAnalysis sessionId a default_webInfo formattedData ;;
                   ret (Analyzed sessionId formattedData analyze_suggestions)) w2 in
                match r with
                | Ok a0 => (Ok a0, w'0)
                | Thrown e =>
                    (fun error =>
                       ret (Failure 500 (VStr (str "Failed to process image"))
                              (MessageOf error))) e w'0
                end)
               = (Ok (Analyzed sessionId data analyze_suggestions), w')
               /\ session_of w' sessionId
                  = Some (fresh_session (clock w3) a default_webInfo data)).
  { intros w2 H2. unfold bind at 1. rewrite H2.
    exists (stored sessionId a default_webInfo data w3).
    unfold bind at 1. rewrite storeAnalysis_run.
    split; [ reflexivity | apply session_of_stored ]. }
  fold (enrich_request_of a).
  destruct (enrich_request_of a) as [call|]; [| apply Hstore; exact Hsum ].
  simpl. rewrite Hfail. apply Hstore. exact Hsum.
Qed.

(** The fallback of the Summarize stage calls [slice] on whatever
    [ingredients] is, unless it is [null] or [undefined]. *)
Lemma summary_fallback_throws (a : value) (w : World) :
  slice_opt (get_opt a (str "ingredients")) 5 = None ->
  fst (summary_fallback a w) = Thrown TypeError.
Proof.
  intros H. unfold summary_fallback, bind, prop, or_throw.
  destruct a; try reflexivity; try discriminate H.
  cbn [get get_opt] in *. unfold ret at 1 2 3 4. rewrite H. reflexivity.
Qed.

(** For every other kind of [ingredients] (a list, a string, [null], none at
    all) the fallback returns its summary. *)
Lemma summary_fallback_returns (a main : value) (w : World) :
  a <> VNull -> a <> VUndefined ->
  slice_opt (get_opt a (str "ingredients")) 5 = Some main ->
  exists data, summary_fallback a w = (Ok data, w).
Proof.
  intros Hn Hu H. unfold summary_fallback, bind, prop, or_throw.
  destruct a; try congruence; cbn [get get_opt] in *;
    unfold ret at 1 2 3 4; rewrite H; eexists; reflexivity.
Qed.

(** C4, the code at the failing input. The extraction succeeds with
    [ingredients: false]; the request of the Enrich stage is rejected; the
    request of the Summarize stage is rejected too, and its fallback throws a
    [TypeError] on [ingredients?.slice]: the analysis request fails with
    status 500 and no session is stored. The same replies with a list of
    ingredients give a session whose enrichment is the fixed default. *)
Theorem enrichment_failure_pipeline_fails :
  let call := ExtractCall (str "image/png") (str "iVBORw==") in
  let missing := EnrichCall (VStr (str "Oat Crisp")) [] in
  let listed := EnrichCall (VStr (str "Oat Crisp")) [ VStr (str "oats"); VStr (str "sugar") ] in
  (exists a w',
      coerce no_ingredients = Some a
      /\ reply (extraction_only no_ingredients) missing
         = Failed (CapabilityError (str "503 Service Unavailable"))
      /\ post_analyze (extraction_only no_ingredients) example_id (Some png) (empty_world 0)
         = (Ok (Failure 500 (VStr (str "Failed to process image")) (MessageOf TypeError)), w')
      /\ sessions w' = ∅
      /\ objects w' = []
      /\ calls w' = [ call; missing; SummarizeCall a default_webInfo ])
  /\ (exists a data w',
        coerce oat_crisp_text = Some a
        /\ post_analyze (extraction_only oat_crisp_text) example_id (Some png) (empty_world 0)
           = (Ok (Analyzed example_id data analyze_suggestions), w')
        /\ option_map webInfo (session_of w' example_id) = Some default_webInfo
        /\ calls w' = [ call; listed; SummarizeCall a default_webInfo ]).
Proof.
  split.
  - eexists _, _. vm_compute. repeat split; reflexivity.
  - eexists _, _, _. vm_compute. repeat split; reflexivity.
Qed.

(** ** Requests to the capability *)

Lemma extends_ret {A} (a : A) : extends (ret a).
Proof. intros w. exists []. simpl. now rewrite app_nil_r. Qed.

Lemma extends_throw {A} (e : exn) : extends (@throw A e).
Proof. intros w. exists []. simpl. now rewrite app_nil_r. Qed.

Lemma extends_or_throw {A} (o : option A) (e : exn) : extends (or_throw o e).
Proof. destruct o; [ apply extends_ret | apply extends_throw ]. Qed.

Lemma extends_bind {A B} (m : M A) (k : A -> M B) :
  extends m -> (forall a, extends (k a)) -> extends (bind m k).
Proof.
  intros Hm Hk w. unfold bind. destruct (Hm w) as [r1 H1].
  destruct (m w) as [[a|e] w1]; simpl in *.
  - destruct (Hk a w1) as [r2 H2]. exists (r1 ++ r2). rewrite H2, H1, app_assoc. reflexivity.
  - exists r1. exact H1.
Qed.

Lemma extends_try_catch {A} (m : M A) (h : exn -> M A) :
  extends m -> (forall e, extends (h e)) -> extends (try_catch m h).
Proof.
  intros Hm Hh w. unfold try_catch. destruct (Hm w) as [r1 H1].
  destruct (m w) as [[a|e] w1]; simpl in *.
  - exists r1. exact H1.
  - destruct (Hh e w1) as [r2 H2]. exists (r1 ++ r2). rewrite H2, H1, app_assoc. reflexivity.
Qed.

Lemma extends_invoke (cap : Capability) (c : CapCall) : extends (invoke cap c).
Proof. intros w. exists [c]. unfold invoke. destruct (reply cap c); reflexivity. Qed.

Lemma extends_storeAnalysis (sessionId : jsstring) (a wi f : value) :
  extends (storeAnalysis sessionId a wi f).
Proof. intros w. exists []. simpl. now rewrite app_nil_r. Qed.

Ltac extends_tac :=
  repeat first
    [ apply extends_ret
    | apply extends_throw
    | apply extends_or_throw
    | apply extends_invoke
    | apply extends_storeAnalysis
    | apply extends_bind; [| intros ? ]
    | apply extends_try_catch; [| intros ? ]
    | progress cbv zeta
    | match goal with
      | |- extends (match ?x with _ => _ end) => destruct x
      | |- extends (if ?x then _ else _) => destruct x
      end ].

Lemma extends_searchProductInfo (cap : Capability) (pn ing : value) :
  extends (searchProductInfo cap pn ing).
Proof. unfold searchProductInfo, parse, interpolate, join. extends_tac. Qed.

Lemma extends_generateFormattedSummary (cap : Capability) (a wi : value) :
  extends (generateFormattedSummary cap a wi).
Proof. unfold generateFormattedSummary, summary_fallback, parse, prop. extends_tac. Qed.

(** The analysis handler from the Enrich stage on. *)
Lemma extends_after_extract (cap : Capability) (sessionId : jsstring) (r : AnalysisResult) :
  extends
    (match r with
     | AnalysisFailed error details => ret (Failure 500 error details)
     | AnalysisOk analysis =>
         let* productName := prop analysis "productName" in
         let* ingredients := prop analysis "ingredients" in
         let* webSearchResult :=
           searchProductInfo cap
             (js_or productName (VStr (str "Unknown Product")))
             (js_or ingredients (VArr [])) in
         let webInfo := if search_success webSearchResult
                        then search_webInfo webSearchResult
                        else default_webInfo in
         let* formattedData := generateFormattedSummary cap analysis webInfo in
         storeAnalysis sessionId analysis webInfo formattedData ;;
         ret (Analyzed sessionId formattedData analyze_suggestions)
     end).
Proof.
  destruct r; [| apply extends_ret ].
  unfold prop.
  apply extends_bind; [ apply extends_or_throw | intros pn ].
  apply extends_bind; [ apply extends_or_throw | intros ing ].
  apply extends_bind; [ apply extends_searchProductInfo | intros ws ].
  cbv zeta.
  apply extends_bind; [ apply extends_generateFormattedSummary | intros fd ].
  apply extends_bind; [ apply extends_storeAnalysis | intros _ ].
  apply extends_ret.
Qed.

(** C6 as stated fails: the Extract stage is given a payload with the media
    type [image/bmp], which is not on the list of supported types, and it
    sends its request to the capability all the same; the stage checks the
    prefix [image/] only. *)
Lemma analyzeImage_sends_unlisted_type :
  let cap := always oat_crisp_text in
  let call := ExtractCall (mimetype bmp) (base64 (buffer bmp)) in
  includes SUPPORTED_IMAGE_TYPES (mimetype bmp) = false
  /\ base64 (buffer bmp) <> []
  /\ analyzeImage cap (base64 (buffer bmp)) (mimetype bmp) (empty_world 0)
     = (Ok (AnalysisOk oat_crisp), after_call cap call (empty_world 0))
  /\ calls (after_call cap call (empty_world 0)) = [call].
Proof. vm_compute. repeat split; try reflexivity. discriminate. Qed.

(** C6, amended. Before it sends its request the Extract stage checks that
    the payload is not empty and that the media type starts with [image/]:
    an input that fails either check makes the stage fail with the message
    of that check and never reaches the capability, and an input that passes
    both is sent, in one request. The list of supported types is not checked
    by the stage but by the file filter in front of it: on an analysis
    request a part whose media type is not on the list, or a file without
    data, ends without any request to the capability; a part that passes the
    filter and the size limit and carries data does reach it, and the first
    request is the one of the Extract stage, for that media type and that
    payload; a request without a file part sends nothing either. *)
Theorem extract_validates_before_invoking (cap : Capability) (w : World) :
  (forall mimeType,
      analyzeImage cap [] mimeType w
      = (Ok (AnalysisFailed (VStr (str "Failed to analyze image"))
               (MessageOf (Error (str ("Invalid image data: "
                                       ++ "base64 string is empty or not a string"))))), w))
  /\ (forall imageBase64 mimeType,
        imageBase64 <> [] -> startsWith mimeType (str "image/") = false ->
        analyzeImage cap imageBase64 mimeType w
        = (Ok (AnalysisFailed (VStr (str "Failed to analyze image"))
                 (MessageOf (Error (str "Invalid MIME type: " ++ mimeType)))), w))
  /\ (forall imageBase64 mimeType,
        imageBase64 <> [] -> startsWith mimeType (str "image/") = true ->
        calls (snd (analyzeImage cap imageBase64 mimeType w))
        = calls w ++ [ExtractCall mimeType imageBase64])
  /\ (forall sessionId part,
        let w' := snd (post_analyze cap sessionId part w) in
        (forall f, part = Some f ->
                   includes SUPPORTED_IMAGE_TYPES (mimetype f) = false \/ buffer f = [] ->
                   calls w' = calls w)
        /\ (forall f, part = Some f -> accepted f -> buffer f <> [] ->
                      exists rest,
                        calls w'
                        = calls w ++ ExtractCall (mimetype f) (base64 (buffer f)) :: rest)
        /\ (part = None -> calls w' = calls w)).
Proof.
  split; [| split; [| split ] ].
  - intros mimeType. reflexivity.
  - intros imageBase64 mimeType Hb Hm. destruct imageBase64 as [|c b]; [ congruence |].
    run_stage. rewrite Hm. reflexivity.
  - intros imageBase64 mimeType Hb Hm. rewrite analyzeImage_invokes by assumption.
    reflexivity.
  - intros sessionId part w'. subst w'. split; [| split ].
    + intros f -> Hbad. unfold post_analyze.
      destruct (includes SUPPORTED_IMAGE_TYPES (mimetype f)) eqn:Hi; simpl; [| reflexivity ].
      destruct (fileSize <? N.of_nat (length (buffer f))); [ reflexivity |].
      destruct Hbad as [Hbad|Hbad]; [ discriminate |].
      unfold analyze_handler, try_catch, bind at 1. rewrite Hbad.
      destruct (analyzeImage_rejects cap (base64 []) (mimetype f) w) as [e ->];
        [ left; reflexivity |].
      reflexivity.
    + intros f -> Hacc Hb. rewrite post_analyze_accepted by exact Hacc.
      unfold analyze_handler, try_catch, bind at 1.
      rewrite analyzeImage_invokes;
        [| apply base64_nonempty; exact Hb | apply includes_supported; apply Hacc ].
      set (call := ExtractCall (mimetype f) (base64 (buffer f))).
      destruct (extends_after_extract cap sessionId (extract_outcome (reply cap call))
                  (after_call cap call w)) as [rest Hrest].
      exists rest.
      match goal with
      | H : calls (snd (?m ?w1)) = _ |- _ => destruct (m w1) as [[r|e] w2]
      end; simpl in *; rewrite Hrest, <- app_assoc; reflexivity.
    + intros ->. reflexivity.
Qed.

Lemma extract_validates_before_invoking_witness :
  let cap := always oat_crisp_text in
  calls (snd (analyzeImage cap (str "Qk0=") (str "text/plain") (empty_world 0))) = []
  /\ calls (snd (analyzeImage cap (str "iVBORw==") (str "image/png") (empty_world 0)))
     = [ExtractCall (str "image/png") (str "iVBORw==")]
  /\ calls (snd (post_analyze cap example_id (Some bmp) (empty_world 0))) = []
  /\ calls (snd (post_analyze cap example_id (Some empty_png) (empty_world 0))) = []
  /\ (exists rest,
         calls (snd (post_analyze cap example_id (Some png) (empty_world 0)))
         = ExtractCall (str "image/png") (str "iVBORw==") :: rest)
  /\ calls (snd (post_analyze cap example_id None (empty_world 0))) = [].
Proof.
  intros cap.
  destruct (extract_validates_before_invoking cap (empty_world 0))
    as (_ & Hmime & Hsend & Hroute).
  destruct (Hroute example_id (Some bmp)) as (Hbmp & _ & _).
  destruct (Hroute example_id (Some empty_png)) as (Hempty & _ & _).
  destruct (Hroute example_id (Some png)) as (_ & Hpng & _).
  destruct (Hroute example_id None) as (_ & _ & Hnone).
  split; [| split; [| split; [| split; [| split ] ] ] ].
  - rewrite (Hmime (str "Qk0=") (str "text/plain")); [ reflexivity | discriminate | reflexivity ].
  - apply (Hsend (str "iVBORw==") (str "image/png")); [ discriminate | reflexivity ].
  - apply (Hbmp bmp); [ reflexivity | left; reflexivity ].
  - apply (Hempty empty_png); [ reflexivity | right; reflexivity ].
  - destruct (Hpng png) as [rest Hrest];
      [ reflexivity | split; [ reflexivity | vm_compute; discriminate ] | discriminate |].
    exists rest. exact Hrest.
  - apply Hnone. reflexivity.
Defined.

(** ** The conversation *)

Lemma getAnalysis_bound (w : World) (sessionId : jsstring) (l : nat) (s : Session) :
  sessions w !! sessionId = Some l ->
  objects w !! l = Some s ->
  getAnalysis sessionId w
  = (Ok (Some l),
     {| sessions := sessions w;
        objects := <[l := set_lastAccessed (clock w) s]> (objects w);
        clock := clock w; calls := calls w |}).
Proof.
  intros Hs Ho. run_store. rewrite Hs. repeat (rewrite Ho; simpl).
  rewrite insert_id by assumption. reflexivity.
Qed.

Lemma handleFollowUp_run (cap : Capability) (a wi : value) (question : jsstring)
    (h : list Entry) (w : World) :
  handleFollowUp cap a wi question h w
  = (Ok (match reply cap (RespondCall a wi h question) with
         | Content text => FollowUpOk (respond_value text)
         | Failed e =>
             FollowUpFailed (str "Failed to process follow-up question") (MessageOf e)
         end),
     after_call cap (RespondCall a wi h question) w).
Proof.
  run_stage. unfold respond_value, coerce.
  destruct (reply cap (RespondCall a wi h question)); [ reflexivity |].
  destruct (JSON_parse (clean_markdown text)); reflexivity.
Qed.

Lemma slice_last10_last (h : list Entry) (e : Entry) :
  last (slice_last10 (h ++ [e])) = Some e.
Proof.
  unfold slice_last10. rewrite length_app. simpl.
  rewrite drop_app_le by lia. apply last_snoc.
Qed.

(** C9. A question put to a known session is first recorded, then sent to
    the Respond stage, whose request carries the history that already ends
    with the question, and the stage is invoked once. When the request
    succeeds and the reply gives an answer, the answer is recorded after the
    question and the request is answered with it: the history is the old
    one followed by the two entries, user then assistant, cut to the last
    ten. When the stage fails (or the reply gives nothing to read an answer
    from), the request fails and the history is the old one followed by the
    question only. *)
Theorem ask_records_question_then_answer (cap : Capability) (sessionId question : jsstring)
    (w : World) (l : nat) (s : Session) :
  sessionId <> [] ->
  sessions w !! sessionId = Some l ->
  objects w !! l = Some s ->
  trim question <> [] ->
  let asked := entry (clock w) (str "user") (VStr question) in
  let h1 := slice_last10 (conversationHistory s ++ [asked]) in
  let call := RespondCall (analysis s) (js_or (webInfo s) (VObj [])) h1 question in
  let answered answer := entry (clock w + latency cap call) (str "assistant") answer in
  exists resp w' s',
    post_chat cap (Some sessionId) (VStr question) w = (Ok resp, w')
    /\ last h1 = Some asked
    /\ calls w' = calls w ++ [call]
    /\ session_of w' sessionId = Some s'
    /\ match reply cap call with
       | Failed e =>
           resp = Failure 500 (VStr (str "Failed to process follow-up question"))
                    (MessageOf e)
           /\ conversationHistory s' = h1
       | Content text =>
           match get (respond_value text) (str "answer") with
           | Some answer =>
               (exists suggested, resp = Answered answer suggested (conversationHistory s'))
               /\ conversationHistory s'
                  = slice_last10 (conversationHistory s ++ [asked; answered answer])
           | None =>
               resp = Failure 500 (VStr (str "Failed to process message")) (MessageOf TypeError)
               /\ conversationHistory s' = h1
           end
       end.
Proof.
  intros Hid Hs Ho Hq asked h1 call answered.
  assert (Hl : (l < length (objects w))%nat) by (eapply lookup_lt_Some; eassumption).
  unfold post_chat. destruct sessionId as [|c0 sid0] eqn:Eid; [ congruence |].
  rewrite <- Eid in *. clear Eid.
  unfold bind at 1. unfold hasSession at 1. rewrite Hs. simpl has. cbv iota.
  unfold chat_handler, try_catch.
  destruct (trim question) as [|c1 q1] eqn:Etrim; [ congruence |].
  unfold has. cbv beta iota.
  unfold bind at 1. rewrite (getAnalysis_bound w sessionId l s Hs Ho).
  set (s1 := set_lastAccessed (clock w) s).
  set (w1 := {| sessions := sessions w; objects := <[l:=s1]> (objects w);
                clock := clock w; calls := calls w |}).
  assert (Ho1 : objects w1 !! l = Some s1) by (apply list_lookup_insert_eq; exact Hl).
  unfold bind at 1.
  rewrite (addToConversationHistory_bound w1 sessionId (str "user") (VStr question) l s1 Hs Ho1).
  set (s2 := appended (clock w1) (str "user") (VStr question) s1).
  set (w2 := {| sessions := sessions w1; objects := <[l:=s2]> (objects w1);
                clock := clock w1; calls := calls w1 |}).
  assert (Hl1 : (l < length (objects w1))%nat) by (simpl; rewrite length_insert; exact Hl).
  assert (Ho2 : objects w2 !! l = Some s2) by (apply list_lookup_insert_eq; exact Hl1).
  unfold bind at 1. unfold deref at 1. rewrite Ho2.
  unfold bind at 1. rewrite handleFollowUp_run.
  change (conversationHistory s2) with h1.
  change (analysis s2) with (analysis s). change (webInfo s2) with (webInfo s).
  fold call.
  set (w3 := after_call cap call w2).
  assert (Hs3 : sessions w3 !! sessionId = Some l) by exact Hs.
  assert (Ho3 : objects w3 !! l = Some s2) by exact Ho2.
  assert (Hses3 : session_of w3 sessionId = Some s2)
    by (unfold session_of; rewrite Hs3; exact Ho3).
  destruct (reply cap call) as [e|text].
  - exists (Failure 500 (VStr (str "Failed to process follow-up question")) (MessageOf e)),
      w3, s2.
    split; [ reflexivity |]. split; [ apply slice_last10_last |].
    split; [ reflexivity |]. split; [ exact Hses3 |]. split; reflexivity.
  - unfold bind at 1. unfold prop at 1.
    destruct (get (respond_value text) (str "answer")) as [answer|] eqn:Hans.
    + simpl or_throw. unfold ret at 1. unfold bind at 1.
      rewrite (addToConversationHistory_bound w3 sessionId (str "assistant") answer l s2
                 Hs3 Ho3).
      set (s3 := appended (clock w3) (str "assistant") answer s2).
      set (w4 := {| sessions := sessions w3; objects := <[l:=s3]> (objects w3);
                    clock := clock w3; calls := calls w3 |}).
      assert (Hl3 : (l < length (objects w3))%nat)
        by (simpl; rewrite !length_insert; exact Hl).
      assert (Ho4 : objects w4 !! l = Some s3) by (apply list_lookup_insert_eq; exact Hl3).
      assert (Hsq : exists sq, get (respond_value text) (str "suggestedQuestions") = Some sq).
      { destruct (respond_value text); try discriminate Hans; eexists; reflexivity. }
      destruct Hsq as [sq Hsq].
      unfold bind at 1. unfold prop at 1. rewrite Hsq. simpl or_throw. unfold ret at 1.
      unfold bind at 1. unfold deref at 1. rewrite Ho4.
      exists (Answered answer (js_or sq (VArr [])) (conversationHistory s3)), w4, s3.
      split; [ reflexivity |]. split; [ apply slice_last10_last |].
      split; [ reflexivity |].
      split; [ unfold session_of; simpl sessions; rewrite Hs; exact Ho4 |].
      split; [ eexists; reflexivity |].
      change (conversationHistory s3)
        with (slice_last10 (slice_last10 (conversationHistory s ++ [asked])
                            ++ [answered answer])).
      rewrite slice_last10_push, <- app_assoc. reflexivity.
    + exists (Failure 500 (VStr (str "Failed to process message")) (MessageOf TypeError)),
        w3, s2.
      split; [ reflexivity |]. split; [ apply slice_last10_last |].
      split; [ reflexivity |]. split; [ exact Hses3 |]. split; reflexivity.
Qed.

Lemma ask_records_question_then_answer_witness :
  (exists w' s',
      post_chat (always vegan_answer) (Some example_id) (VStr (str "is this vegan?"))
        one_session
      = (Ok (Answered (VStr (str "Yes, oats and sugar are vegan.")) (VArr [])
               (conversationHistory s')), w')
      /\ session_of w' example_id = Some s'
      /\ conversationHistory s'
         = [ entry 1000 (str "user") (VStr (str "is this vegan?"));
             entry 2000 (str "assistant") (VStr (str "Yes, oats and sugar are vegan.")) ])
  /\ (exists w' s',
        post_chat unavailable (Some example_id) (VStr (str "is this vegan?")) one_session
        = (Ok (Failure 500 (VStr (str "Failed to process follow-up question"))
                 (MessageOf (CapabilityError (str "429 Too Many Requests")))), w')
        /\ session_of w' example_id = Some s'
        /\ conversationHistory s'
           = [ entry 1000 (str "user") (VStr (str "is this vegan?")) ]).
Proof.
  split.
  - destruct (ask_records_question_then_answer (always vegan_answer) example_id
                (str "is this vegan?") one_session 0
                (fresh_session 1000 oat_crisp default_webInfo VNull))
      as (resp & w' & s' & Hrun & _ & _ & Hses & Hout);
      [ discriminate | vm_compute; reflexivity | reflexivity | discriminate |].
    change (reply (always vegan_answer) _) with (Content vegan_answer) in Hout.
    cbv beta iota in Hout.
    change (get (respond_value vegan_answer) (str "answer"))
      with (Some (VStr (str "Yes, oats and sugar are vegan."))) in Hout.
    cbv beta iota in Hout.
    destruct Hout as [[suggested ->] Hh].
    exists w', s'. split; [| split; [ exact Hses | rewrite Hh; reflexivity ] ].
    rewrite Hrun in *.
    assert (Hsq : fst (post_chat (always vegan_answer) (Some example_id)
                         (VStr (str "is this vegan?")) one_session)
                  = Ok (Answered (VStr (str "Yes, oats and sugar are vegan.")) (VArr [])
                          [ entry 1000 (str "user") (VStr (str "is this vegan?"));
                            entry 2000 (str "assistant")
                              (VStr (str "Yes, oats and sugar are vegan.")) ]))
      by (vm_compute; reflexivity).
    rewrite Hrun in Hsq. simpl in Hsq. injection Hsq as -> _. reflexivity.
  - destruct (ask_records_question_then_answer unavailable example_id
                (str "is this vegan?") one_session 0
                (fresh_session 1000 oat_crisp default_webInfo VNull))
      as (resp & w' & s' & Hrun & _ & _ & Hses & Hout);
      [ discriminate | vm_compute; reflexivity | reflexivity | discriminate |].
    change (reply unavailable _)
      with (Failed (CapabilityError (str "429 Too Many Requests"))) in Hout.
    cbv beta iota in Hout. destruct Hout as [-> Hh].
    exists w', s'. split; [ exact Hrun | split; [ exact Hses | rewrite Hh; reflexivity ] ].
Defined.

(** * More properties of the code *)

(** ** The session manager *)

Lemma well_formed_lookup (w : World) (sessionId : jsstring) (l : nat) :
  well_formed w -> sessions w !! sessionId = Some l -> exists s, objects w !! l = Some s.
Proof. intros Hwf Hs. apply lookup_lt_is_Some_2. eapply Hwf. exact Hs. Qed.

Lemma event_well_formed (w w' : World) : well_formed w -> event w w' -> well_formed w'.
Proof.
  intros Hwf Hev. destruct Hev.
  - intros sid l. simpl. rewrite length_app. simpl.
    destruct (decide (sessionId = sid)) as [->|Hne].
    + rewrite lookup_insert_eq. intros [= <-]. lia.
    + rewrite lookup_insert_ne by exact Hne. intros H. apply Hwf in H. lia.
  - destruct (sessions w !! sessionId) as [l|] eqn:Hs.
    + destruct (well_formed_lookup w sessionId l Hwf Hs) as [s Ho].
      rewrite (getAnalysis_bound w sessionId l s Hs Ho).
      intros sid l'. simpl. rewrite length_insert. apply Hwf.
    + unfold getAnalysis, bind, sessions_get. rewrite Hs. exact Hwf.
  - destruct (sessions w !! sessionId) as [l|] eqn:Hs.
    + destruct (well_formed_lookup w sessionId l Hwf Hs) as [s Ho].
      rewrite (addToConversationHistory_bound w sessionId r c l s Hs Ho).
      intros sid l'. simpl. rewrite length_insert. apply Hwf.
    + rewrite addToConversationHistory_unbound by exact Hs. exact Hwf.
  - intros sid l. simpl. intros H. apply lookup_delete_Some in H as [_ H].
    eapply Hwf. exact H.
  - intros sid l. simpl. intros H. apply map_lookup_filter_Some in H as [H _].
    eapply Hwf. exact H.
  - exact Hwf.
  - unfold invoke. destruct (reply cap c); exact Hwf.
Qed.

Lemma reachable_well_formed (w : World) : reachable w -> well_formed w.
Proof.
  induction 1 as [t|w w' _ IH Hev].
  - intros sid l. simpl. rewrite lookup_empty. discriminate.
  - eapply event_well_formed; eassumption.
Qed.


(** X2. Expiry slides: whatever the age of a session, reading it with
    [getAnalysis] or appending to it with [addToConversationHistory] restarts
    its thirty minutes. A sweep that runs [d] milliseconds after the access
    keeps the session when [d] is at most [SESSION_TIMEOUT] and removes it
    when [d] is more. *)
Theorem access_slides_expiry (w : World) (sessionId r : jsstring) (c : value)
    (l : nat) (s : Session) (d : Z) :
  sessions w !! sessionId = Some l ->
  objects w !! l = Some s ->
  let after_get := snd ((getAnalysis sessionId ;; advance d ;; sweep) w) in
  let after_append :=
    snd ((addToConversationHistory sessionId r c ;; advance d ;; sweep) w) in
  ((d <= SESSION_TIMEOUT)%Z ->
     session_of after_get sessionId = Some (set_lastAccessed (clock w) s)
     /\ session_of after_append sessionId = Some (appended (clock w) r c s))
  /\ ((SESSION_TIMEOUT < d)%Z ->
       sessions after_get !! sessionId = None
       /\ sessions after_append !! sessionId = None).
Proof.
  intros Hs Ho after_get after_append.
  assert (Hl : (l < length (objects w))%nat) by (eapply lookup_lt_Some; eassumption).
  subst after_get after_append. unfold bind.
  rewrite (getAnalysis_bound w sessionId l s Hs Ho).
  rewrite (addToConversationHistory_bound w sessionId r c l s Hs Ho).
  unfold session_of. simpl.
  split; intros Hd.
  - split.
    + erewrite map_lookup_filter_Some_2; [ apply list_lookup_insert_eq; exact Hl | exact Hs |].
      simpl. unfold expired. simpl. rewrite list_lookup_insert_eq by exact Hl. simpl.
      apply Z.ltb_ge. lia.
    + erewrite map_lookup_filter_Some_2; [ apply list_lookup_insert_eq; exact Hl | exact Hs |].
      simpl. unfold expired. simpl. rewrite list_lookup_insert_eq by exact Hl. simpl.
      apply Z.ltb_ge. lia.
  - split; apply map_lookup_filter_None; right; intros l' Hs';
      rewrite Hs in Hs'; injection Hs' as <-; simpl; unfold expired; simpl;
      rewrite list_lookup_insert_eq by exact Hl; simpl;
      (assert (E : (SESSION_TIMEOUT <? clock w + d - clock w)%Z = true)
        by (apply Z.ltb_lt; lia)); rewrite E; discriminate.
Qed.

Lemma access_slides_expiry_witness :
  let old := snd (advance (2 * SESSION_TIMEOUT) one_session) in
  session_of (snd ((getAnalysis example_id ;; advance SESSION_TIMEOUT ;; sweep) old))
    example_id
  = Some (set_lastAccessed 3601000 (fresh_session 1000 oat_crisp default_webInfo VNull))
  /\ sessions (snd ((addToConversationHistory example_id (str "user") VNull ;;
                     advance (SESSION_TIMEOUT + 1) ;; sweep) old)) !! example_id
     = None.
Proof.
  intros old.
  destruct (access_slides_expiry old example_id (str "user") VNull 0
              (fresh_session 1000 oat_crisp default_webInfo VNull) SESSION_TIMEOUT)
    as [Hkeep _]; [ vm_compute; reflexivity | reflexivity |].
  destruct (access_slides_expiry old example_id (str "user") VNull 0
              (fresh_session 1000 oat_crisp default_webInfo VNull) (SESSION_TIMEOUT + 1))
    as [_ Hdrop]; [ vm_compute; reflexivity | reflexivity |].
  split.
  - apply Hkeep. lia.
  - apply Hdrop. lia.
Defined.

(** X3. Store, read, delete: after [storeAnalysis] the id is known, and
    [getAnalysis] returns the session just stored; [deleteSession] then
    returns [true], after which [hasSession] and a second [deleteSession]
    return [false], [getAnalysis] and [addToConversationHistory] return
    absent, and the bindings are those from before the store without the
    id. *)
Theorem store_read_delete (w : World) (sessionId r : jsstring) (a wi f c : value) :
  let w1 := snd (storeAnalysis sessionId a wi f w) in
  fst (hasSession sessionId w1) = Ok true
  /\ (exists w2,
        getAnalysis sessionId w1 = (Ok (Some (length (objects w))), w2)
        /\ session_of w2 sessionId = Some (fresh_session (clock w) a wi f))
  /\ exists w3,
       deleteSession sessionId w1 = (Ok true, w3)
       /\ sessions w3 = delete sessionId (sessions w)
       /\ hasSession sessionId w3 = (Ok false, w3)
       /\ getAnalysis sessionId w3 = (Ok None, w3)
       /\ addToConversationHistory sessionId r c w3 = (Ok None, w3)
       /\ fst (deleteSession sessionId w3) = Ok false.
Proof.
  intros w1. subst w1. rewrite storeAnalysis_run.
  cbn [snd]. split; [| split ].
  - unfold hasSession, stored. simpl. rewrite lookup_insert_eq. reflexivity.
  - pose proof (session_of_stored w sessionId a wi f) as Hses.
    unfold session_of in Hses.
    assert (Hs : sessions (stored sessionId a wi f w) !! sessionId
                 = Some (length (objects w))) by (simpl; apply lookup_insert_eq).
    rewrite Hs in Hses.
    rewrite (getAnalysis_bound _ sessionId _ _ Hs Hses).
    eexists. split; [ reflexivity |].
    unfold session_of. simpl. rewrite lookup_insert_eq.
    rewrite list_lookup_insert_eq by (rewrite length_app; simpl; lia).
    reflexivity.
  - eexists. split.
    + unfold deleteSession, bind, sessions_delete, ret. simpl.
      rewrite lookup_insert_eq. reflexivity.
    + simpl. rewrite delete_insert_eq.
      assert (Hnone : delete sessionId (sessions w) !! sessionId = None)
        by apply lookup_delete_eq.
      split; [ reflexivity |]. split; [| split; [| split ] ].
      * unfold hasSession. simpl. rewrite Hnone. reflexivity.
      * unfold getAnalysis, bind, sessions_get. simpl. rewrite Hnone. reflexivity.
      * apply addToConversationHistory_unbound. exact Hnone.
      * unfold deleteSession, bind, sessions_delete. simpl. rewrite Hnone. reflexivity.
Qed.

(** X4. In every world the process can reach, [hasSession] and
    [getAnalysis] agree on which ids are known; [hasSession] changes nothing,
    not even [lastAccessed]. *)
Theorem hasSession_agrees_with_getAnalysis (w : World) (sessionId : jsstring) :
  reachable w ->
  exists known,
    hasSession sessionId w = (Ok known, w)
    /\ (known = true <-> exists l, fst (getAnalysis sessionId w) = Ok (Some l))
    /\ (known = false <-> fst (getAnalysis sessionId w) = Ok None).
Proof.
  intros Hreach. apply reachable_well_formed in Hreach.
  unfold hasSession. eexists. split; [ reflexivity |].
  destruct (sessions w !! sessionId) as [l|] eqn:Hs; simpl.
  - destruct (well_formed_lookup w sessionId l Hreach Hs) as [s Ho].
    rewrite (getAnalysis_bound w sessionId l s Hs Ho). simpl. split.
    + split; [ intros _; exists l; reflexivity | reflexivity ].
    + split; discriminate.
  - unfold getAnalysis, bind, sessions_get. rewrite Hs. simpl. split.
    + split; [ discriminate | intros [l H]; discriminate ].
    + split; reflexivity.
Qed.

Lemma hasSession_agrees_with_getAnalysis_witness :
  (exists l, fst (getAnalysis example_id one_session) = Ok (Some l))
  /\ fst (getAnalysis (str "unknown") one_session) = Ok None.
Proof.
  assert (Hreach : reachable one_session).
  { apply (reach_event (empty_world 1000)); [ apply reach_start |].
    apply (ev_store example_id oat_crisp default_webInfo VNull). }
  destruct (hasSession_agrees_with_getAnalysis one_session example_id Hreach)
    as (k1 & Hk1 & Hyes & _).
  destruct (hasSession_agrees_with_getAnalysis one_session (str "unknown") Hreach)
    as (k2 & Hk2 & _ & Hno).
  split.
  - apply Hyes. vm_compute in Hk1. injection Hk1 as <-. reflexivity.
  - apply Hno. vm_compute in Hk2. injection Hk2 as <-. reflexivity.
Defined.

(** ** The chat request *)

(** The run of the chat handler on a session that exists, in closed form. *)
Lemma chat_handler_run (cap : Capability) (sessionId question : jsstring)
    (w : World) (l : nat) (s : Session) :
  sessions w !! sessionId = Some l ->
  objects w !! l = Some s ->
  trim question <> [] ->
  let s2 := appended (clock w) (str "user") (VStr question) (set_lastAccessed (clock w) s) in
  let call := RespondCall (analysis s) (js_or (webInfo s) (VObj []))
                (conversationHistory s2) question in
  let w3 := after_call cap call (with_object l s2 w) in
  chat_handler cap sessionId (VStr question) w
  = match reply cap call with
    | Failed e =>
        (Ok (Failure 500 (VStr (str "Failed to process follow-up question")) (MessageOf e)),
         w3)
    | Content text =>
        match get (respond_value text) (str "answer") with
        | None =>
            (Ok (Failure 500 (VStr (str "Failed to process message")) (MessageOf TypeError)),
             w3)
        | Some answer =>
            let s3 := appended (clock w3) (str "assistant") answer s2 in
            (Ok (Answered answer
                   (js_or (get_opt (respond_value text) (str "suggestedQuestions")) (VArr []))
                   (conversationHistory s3)),
             with_object l s3 w3)
        end
    end.
Proof.
  intros Hs Ho Hq s2 call w3.
  assert (Hl : (l < length (objects w))%nat) by (eapply lookup_lt_Some; eassumption).
  unfold chat_handler, try_catch.
  destruct (trim question) as [|c1 q1] eqn:Etrim; [ congruence |].
  unfold bind at 1. rewrite (getAnalysis_bound w sessionId l s Hs Ho).
  set (s1 := set_lastAccessed (clock w) s).
  set (w1 := {| sessions := sessions w; objects := <[l:=s1]> (objects w);
                clock := clock w; calls := calls w |}).
  assert (Ho1 : objects w1 !! l = Some s1) by (apply list_lookup_insert_eq; exact Hl).
  unfold bind at 1.
  rewrite (addToConversationHistory_bound w1 sessionId (str "user") (VStr question) l s1 Hs Ho1).
  change (appended (clock w1) (str "user") (VStr question) s1) with s2.
  assert (Hw2 : {| sessions := sessions w1; objects := <[l:=s2]> (objects w1);
                   clock := clock w1; calls := calls w1 |} = with_object l s2 w).
  { unfold with_object. simpl. rewrite list_insert_insert_eq. reflexivity. }
  rewrite Hw2. clear Hw2.
  assert (Ho2 : objects (with_object l s2 w) !! l = Some s2)
    by (apply list_lookup_insert_eq; exact Hl).
  unfold bind at 1. unfold deref at 1. rewrite Ho2.
  unfold bind at 1. rewrite handleFollowUp_run.
  change (analysis s2) with (analysis s). change (webInfo s2) with (webInfo s).
  fold call. fold w3.
  assert (Hs3 : sessions w3 !! sessionId = Some l) by exact Hs.
  assert (Ho3 : objects w3 !! l = Some s2) by exact Ho2.
  destruct (reply cap call) as [e|text]; [ reflexivity |].
  unfold bind at 1. unfold prop at 1.
  destruct (get (respond_value text) (str "answer")) as [answer|] eqn:Hans;
    [| reflexivity ].
  simpl or_throw. unfold ret at 1. unfold bind at 1.
  rewrite (addToConversationHistory_bound w3 sessionId (str "assistant") answer l s2 Hs3 Ho3).
  set (s3 := appended (clock w3) (str "assistant") answer s2).
  assert (Hw4 : {| sessions := sessions w3; objects := <[l:=s3]> (objects w3);
                   clock := clock w3; calls := calls w3 |} = with_object l s3 w3)
    by reflexivity.
  rewrite Hw4. clear Hw4.
  assert (Ho4 : objects (with_object l s3 w3) !! l = Some s3).
  { apply list_lookup_insert_eq. simpl. rewrite length_insert. exact Hl. }
  assert (Hsq : get (respond_value text) (str "suggestedQuestions")
                = Some (get_opt (respond_value text) (str "suggestedQuestions"))).
  { destruct (respond_value text); try discriminate Hans; reflexivity. }
  unfold bind at 1. unfold prop at 1. rewrite Hsq. simpl or_throw. unfold ret at 1.
  unfold bind at 1. unfold deref at 1. rewrite Ho4. reflexivity.
Qed.

Lemma chat_handler_invalid (cap : Capability) (sessionId : jsstring) (message : value)
    (w : World) :
  valid_message message = false ->
  chat_handler cap sessionId message w
  = (Ok (Failure 400 (VStr (str "Message is required and must be a non-empty string"))
           NoDetails), w).
Proof.
  intros Hv. unfold chat_handler, try_catch.
  destruct message; try reflexivity.
  simpl in Hv. destruct (trim s); [ reflexivity | discriminate ].
Qed.

(** X5. The checks of a chat request, in their order: without a session id
    in the header the answer is 400; with an id that is not known it is 404,
    whatever the message; with a known id and a message that is no string or
    is empty after trimming it is 400. None of these requests changes the
    world: no entry is recorded, [lastAccessed] is not refreshed, nothing is
    sent to the capability. *)
Theorem post_chat_rejections (cap : Capability) (header : option jsstring)
    (message : value) (w : World) :
  ((header = None \/ header = Some []) ->
     post_chat cap header message w
     = (Ok (Failure 400 (VStr (str "Session ID is required in X-Session-ID header"))
              NoDetails), w))
  /\ (forall sessionId,
        header = Some sessionId -> sessionId <> [] -> sessions w !! sessionId = None ->
        post_chat cap header message w
        = (Ok (Failure 404
                 (VStr (str "Session not found or expired. Please scan the product again."))
                 NoDetails), w))
  /\ (forall sessionId l,
        header = Some sessionId -> sessionId <> [] -> sessions w !! sessionId = Some l ->
        valid_message message = false ->
        post_chat cap header message w
        = (Ok (Failure 400 (VStr (str "Message is required and must be a non-empty string"))
                 NoDetails), w)).
Proof.
  split; [| split ].
  - intros [->| ->]; reflexivity.
  - intros sid -> Hne Hs. destruct sid as [|c0 sid0]; [ congruence |].
    unfold post_chat, bind, hasSession. rewrite Hs. reflexivity.
  - intros sid l -> Hne Hs Hv. destruct sid as [|c0 sid0]; [ congruence |].
    unfold post_chat, bind, hasSession. rewrite Hs. simpl has. cbv iota.
    apply chat_handler_invalid. exact Hv.
Qed.

Lemma post_chat_rejections_witness :
  fst (post_chat unavailable None (VStr (str "is this vegan?")) one_session)
  = Ok (Failure 400 (VStr (str "Session ID is required in X-Session-ID header")) NoDetails)
  /\ post_chat unavailable (Some (str "unknown-id")) (VStr (str "   ")) one_session
     = (Ok (Failure 404
              (VStr (str "Session not found or expired. Please scan the product again."))
              NoDetails), one_session)
  /\ post_chat unavailable (Some example_id) (VStr (str "   ")) one_session
     = (Ok (Failure 400 (VStr (str "Message is required and must be a non-empty string"))
              NoDetails), one_session).
Proof.
  split; [| split ].
  - destruct (post_chat_rejections unavailable None (VStr (str "is this vegan?")) one_session)
      as (H & _ & _).
    rewrite H by (left; reflexivity). reflexivity.
  - destruct (post_chat_rejections unavailable (Some (str "unknown-id"))
                (VStr (str "   ")) one_session) as (_ & H & _).
    apply (H (str "unknown-id")); [ reflexivity | discriminate | vm_compute; reflexivity ].
  - destruct (post_chat_rejections unavailable (Some example_id)
                (VStr (str "   ")) one_session) as (_ & _ & H).
    apply (H example_id 0%nat);
      [ reflexivity | discriminate | vm_compute; reflexivity | vm_compute; reflexivity ].
Defined.

(** X6. In every world the process can reach, a chat request is always
    answered (nothing is thrown to the server), it never adds or removes a
    session, it sends at most one request to the capability, and the 404 of
    the handler itself, ['Session not found or expired'], is never the
    answer: an id that passed [validateSession] is found by
    [getAnalysis]. *)
Theorem post_chat_always_answers (cap : Capability) (header : option jsstring)
    (message : value) (w : World) :
  reachable w ->
  exists resp w',
    post_chat cap header message w = (Ok resp, w')
    /\ sessions w' = sessions w
    /\ length (objects w') = length (objects w)
    /\ (calls w' = calls w \/ exists call, calls w' = calls w ++ [call])
    /\ resp <> Failure 404 (VStr (str "Session not found or expired")) NoDetails.
Proof.
  intros Hreach. apply reachable_well_formed in Hreach.
  destruct header as [[|c0 sid0]|].
  1, 3: eexists _, _; split; [ reflexivity |]; repeat split;
        [ left; reflexivity | discriminate ].
  destruct (sessions w !! (c0 :: sid0)) as [l|] eqn:Hs.
  2: { eexists _, _. split.
       - unfold post_chat, bind, hasSession. rewrite Hs. reflexivity.
       - repeat split; [ left; reflexivity | discriminate ]. }
  destruct (well_formed_lookup w (c0 :: sid0) l Hreach Hs) as [s Ho].
  assert (Hpost : post_chat cap (Some (c0 :: sid0)) message w
                  = chat_handler cap (c0 :: sid0) message w).
  { unfold post_chat, bind, hasSession. rewrite Hs. reflexivity. }
  rewrite Hpost. clear Hpost.
  destruct (valid_message message) eqn:Hv.
  2: { rewrite chat_handler_invalid by exact Hv. eexists _, _. split; [ reflexivity |].
       repeat split; [ left; reflexivity | discriminate ]. }
  destruct message as [| | | |question| |]; try discriminate Hv.
  assert (Hq : trim question <> []).
  { simpl in Hv. destruct (trim question); [ discriminate | discriminate ]. }
  rewrite (chat_handler_run cap (c0 :: sid0) question w l s Hs Ho Hq).
  cbv zeta.
  destruct (reply cap _) as [e|text].
  - eexists _, _. split; [ reflexivity |]. simpl. rewrite length_insert.
    repeat split; [ right; eexists; reflexivity | discriminate ].
  - destruct (get (respond_value text) (str "answer")) as [answer|].
    + eexists _, _. split; [ reflexivity |]. simpl. rewrite !length_insert.
      repeat split; [ right; eexists; reflexivity | discriminate ].
    + eexists _, _. split; [ reflexivity |]. simpl. rewrite length_insert.
      repeat split; [ right; eexists; reflexivity | discriminate ].
Qed.

Lemma post_chat_always_answers_witness :
  exists resp w',
    post_chat (always (str "null")) (Some example_id) (VStr (str "is this vegan?"))
      one_session = (Ok resp, w')
    /\ sessions w' = sessions one_session
    /\ resp <> Failure 404 (VStr (str "Session not found or expired")) NoDetails.
Proof.
  destruct (post_chat_always_answers (always (str "null")) (Some example_id)
              (VStr (str "is this vegan?")) one_session)
    as (resp & w' & Hrun & Hs & _ & _ & Hne).
  - apply (reach_event (empty_world 1000)); [ apply reach_start |].
    apply (ev_store example_id oat_crisp default_webInfo VNull).
  - exists resp, w'. split; [ exact Hrun | split; [ exact Hs | exact Hne ] ].
Defined.

(** ** The analysis request *)

Lemma summary_fallback_world (a : value) (w : World) : snd (summary_fallback a w) = w.
Proof.
  unfold summary_fallback, bind, prop, or_throw.
  destruct a; try reflexivity. cbn [get].
  unfold ret at 1 2 3 4.
  destruct (slice_opt (lookup_field (str "ingredients") fields) 5); reflexivity.
Qed.

Lemma generateFormattedSummary_world (cap : Capability) (a wi : value) (w : World) :
  snd (generateFormattedSummary cap a wi w) = after_call cap (SummarizeCall a wi) w.
Proof.
  rewrite generateFormattedSummary_run.
  destruct (reply cap (SummarizeCall a wi)) as [e|text];
    [ apply summary_fallback_world |].
  destruct (coerce text); [ reflexivity | apply summary_fallback_world ].
Qed.

(** The run of the analysis handler on an upload that was accepted and
    carries data, stage by stage. *)
Lemma analyze_handler_run (cap : Capability) (sessionId : jsstring) (f : File) (w : World) :
  accepted f -> buffer f <> [] ->
  let extract := ExtractCall (mimetype f) (base64 (buffer f)) in
  post_analyze cap sessionId (Some f) w
  = match extract_outcome (reply cap extract) with
    | AnalysisFailed error details => (Ok (Failure 500 error details), after_call cap extract w)
    | AnalysisOk a =>
        let (found, w2) :=
          searchProductInfo cap
            (js_or (get_opt a (str "productName")) (VStr (str "Unknown Product")))
            (js_or (get_opt a (str "ingredients")) (VArr []))
            (after_call cap extract w) in
        match found with
        | Thrown e =>
            (Ok (Failure 500 (VStr (str "Failed to process image")) (MessageOf e)), w2)
        | Ok found =>
            let wi := if search_success found then search_webInfo found
                      else default_webInfo in
            match generateFormattedSummary cap a wi w2 with
            | (Ok data, w3) =>
                (Ok (Analyzed sessionId data analyze_suggestions),
                 stored sessionId a wi data w3)
            | (Thrown e, w3) =>
                (Ok (Failure 500 (VStr (str "Failed to process image")) (MessageOf e)), w3)
            end
        end
    end.
Proof.
  intros Hacc Hb extract.
  rewrite post_analyze_accepted by exact Hacc.
  unfold analyze_handler, try_catch, bind at 1.
  rewrite analyzeImage_invokes;
    [| apply base64_nonempty; exact Hb | apply includes_supported; apply Hacc ].
  fold extract.
  destruct (extract_outcome (reply cap extract)) as [a|error details] eqn:Hex;
    [| reflexivity ].
  destruct (extract_outcome_ok _ _ Hex) as [Hpn Hing].
  unfold bind at 1. unfold prop at 1. rewrite Hpn. simpl or_throw. unfold ret at 1.
  unfold bind at 1. unfold prop at 1. rewrite Hing. simpl or_throw. unfold ret at 1.
  unfold bind at 1.
  destruct (searchProductInfo cap _ _ (after_call cap extract w)) as [[found|e] w2];
    [| reflexivity ].
  cbv zeta. unfold bind at 1.
  destruct (generateFormattedSummary cap a _ w2) as [[data|e] w3]; [| reflexivity ].
  unfold bind at 1. rewrite storeAnalysis_run. reflexivity.
Qed.

Lemma searchProductInfo_store (cap : Capability) (pn ing : value) (w : World) :
  exists found w2,
    searchProductInfo cap pn ing w = (Ok found, w2)
    /\ sessions w2 = sessions w /\ objects w2 = objects w.
Proof.
  rewrite searchProductInfo_run.
  destruct (enrich_request pn ing); eexists _, _; (split; [ reflexivity | split; reflexivity ]).
Qed.

(** X7. An analysis request is always answered, and it commits all or
    nothing: either the answer is the success with the id it was given, and
    the world gained exactly one session object, bound to that id, holding
    the summary that is sent back and an empty history; or the answer is a
    failure and bindings and session objects are exactly as before. *)
Theorem analyze_commits_all_or_nothing (cap : Capability) (sessionId : jsstring)
    (part : option File) (w : World) :
  exists resp w',
    post_analyze cap sessionId part w = (Ok resp, w')
    /\ match resp with
       | Analyzed sessionId' data suggestions =>
           sessionId' = sessionId
           /\ suggestions = analyze_suggestions
           /\ exists a wi,
                sessions w' = <[sessionId := length (objects w)]> (sessions w)
                /\ objects w' = objects w ++ [fresh_session (clock w') a wi data]
       | Failure _ _ _ => sessions w' = sessions w /\ objects w' = objects w
       | _ => False
       end.
Proof.
  destruct part as [f|]; [| eexists _, _; split; [ reflexivity | split; reflexivity ] ].
  destruct (includes SUPPORTED_IMAGE_TYPES (mimetype f)) eqn:Hi.
  2: { eexists _, _. split; [ unfold post_analyze; rewrite Hi; reflexivity |].
       split; reflexivity. }
  destruct (N.ltb_spec fileSize (N.of_nat (length (buffer f)))) as [Hbig|Hsize].
  { eexists _, _. split.
    - unfold post_analyze. rewrite Hi. simpl negb. cbv iota.
      destruct (N.ltb_spec fileSize (N.of_nat (length (buffer f)))); [ reflexivity | lia ].
    - split; reflexivity. }
  assert (Hacc : accepted f) by (split; assumption).
  destruct (buffer f) as [|x b] eqn:Hb.
  - rewrite post_analyze_accepted by exact Hacc.
    unfold analyze_handler, try_catch, bind at 1. rewrite Hb.
    destruct (analyzeImage_rejects cap (base64 []) (mimetype f) w) as [e ->];
      [ left; reflexivity |].
    eexists _, _. split; [ reflexivity | split; reflexivity ].
  - rewrite analyze_handler_run; [| exact Hacc | rewrite Hb; discriminate ].
    cbv zeta. set (extract := ExtractCall (mimetype f) (base64 (buffer f))).
    destruct (extract_outcome (reply cap extract)) as [a|error details].
    2: { eexists _, _. split; [ reflexivity | split; reflexivity ]. }
    destruct (searchProductInfo_store cap
                (js_or (get_opt a (str "productName")) (VStr (str "Unknown Product")))
                (js_or (get_opt a (str "ingredients")) (VArr []))
                (after_call cap extract w)) as (found & w2 & -> & Hs2 & Ho2).
    set (wi := if search_success found then search_webInfo found else default_webInfo).
    pose proof (generateFormattedSummary_world cap a wi w2) as Hw3.
    destruct (generateFormattedSummary cap a wi w2) as [[data|e] w3]; simpl in Hw3; subst w3.
    + eexists _, _. split; [ reflexivity |].
      split; [ reflexivity |]. split; [ reflexivity |].
      exists a, wi. simpl. rewrite Hs2, Ho2. split; reflexivity.
    + eexists _, _. split; [ reflexivity |]. simpl. rewrite Hs2, Ho2. split; reflexivity.
Qed.

(** X8. The uploads that never reach the handler's stages, and their
    answers: no file part gives 400 from the handler; a media type outside
    the supported list gives 500 from the error middleware (the error of the
    file filter is no multer error); a file over the size limit gives 400
    from the error middleware; an accepted file without data gives 500 from
    the Extract stage. In all four cases the world is exactly as before. *)
Theorem upload_rejections (cap : Capability) (sessionId : jsstring) (w : World) :
  post_analyze cap sessionId None w
  = (Ok (Failure 400 (VStr (str "No file uploaded or unsupported file type")) NoDetails), w)
  /\ forall f,
       (includes SUPPORTED_IMAGE_TYPES (mimetype f) = false ->
        post_analyze cap sessionId (Some f) w
        = (Ok (Failure 500 (VStr (str "Internal server error"))
                 (Masked (Error (str "Unsupported file type")))), w))
       /\ (includes SUPPORTED_IMAGE_TYPES (mimetype f) = true ->
           fileSize < N.of_nat (length (buffer f)) ->
           post_analyze cap sessionId (Some f) w
           = (Ok (Failure 400 (VStr (str "File upload error"))
                    (MessageOf (Error (str "File too large")))), w))
       /\ (includes SUPPORTED_IMAGE_TYPES (mimetype f) = true ->
           buffer f = [] ->
           post_analyze cap sessionId (Some f) w
           = (Ok (Failure 500 (VStr (str "Failed to analyze image"))
                    (MessageOf (Error (str ("Invalid image data: "
                                            ++ "base64 string is empty or not a string"))))),
              w)).
Proof.
  split; [ reflexivity |]. intros f. split; [| split ].
  - intros Hi. unfold post_analyze. rewrite Hi. reflexivity.
  - intros Hi Hbig. unfold post_analyze. rewrite Hi. simpl negb. cbv iota.
    destruct (N.ltb_spec fileSize (N.of_nat (length (buffer f)))); [ reflexivity | lia ].
  - intros Hi Hb. unfold post_analyze. rewrite Hi, Hb. simpl negb. cbv iota.
    change (fileSize <? N.of_nat (length [])) with false. cbv iota.
    unfold analyze_handler, try_catch, bind at 1. rewrite Hb. reflexivity.
Qed.

Lemma upload_rejections_witness :
  post_analyze (always oat_crisp_text) example_id (Some bmp) one_session
  = (Ok (Failure 500 (VStr (str "Internal server error"))
           (Masked (Error (str "Unsupported file type")))), one_session)
  /\ fst (post_analyze (always oat_crisp_text) example_id (Some empty_png) one_session)
     = Ok (Failure 500 (VStr (str "Failed to analyze image"))
             (MessageOf (Error (str ("Invalid image data: "
                                     ++ "base64 string is empty or not a string"))))).
Proof.
  destruct (upload_rejections (always oat_crisp_text) example_id one_session) as [_ H].
  split.
  - destruct (H bmp) as (Hbmp & _ & _). apply Hbmp. reflexivity.
  - destruct (H empty_png) as (_ & _ & Hempty). rewrite Hempty; reflexivity.
Defined.

(** [JSON.parse] never returns [undefined]. *)
Lemma parse_step_defined (p p' : parser) (t : token) :
  (forall v, snd p = PHave v -> v <> VUndefined) ->
  parse_step p t = Some p' ->
  forall v, snd p' = PHave v -> v <> VUndefined.
Proof.
  intros Hp Hstep v Hv. destruct p as [stack mode].
  unfold parse_step, parse_value_start in Hstep.
  destruct mode;
    repeat match type of Hstep with
           | match ?x with _ => _ end = _ => destruct x
           end;
    try discriminate; inversion Hstep; subst p'; simpl in Hv;
    try discriminate; inversion Hv; discriminate.
Qed.

Lemma parse_run_defined (ts : list token) (p p' : parser) :
  (forall v, snd p = PHave v -> v <> VUndefined) ->
  parse_run p ts = Some p' ->
  forall v, snd p' = PHave v -> v <> VUndefined.
Proof.
  revert p. induction ts as [|t ts IH]; simpl; intros p Hp Hrun.
  - injection Hrun as <-. exact Hp.
  - destruct (parse_step p t) as [p1|] eqn:Hstep; [| discriminate ].
    eapply IH; [ eapply parse_step_defined; eassumption | exact Hrun ].
Qed.

Lemma JSON_parse_defined (text : jsstring) : JSON_parse text <> Some VUndefined.
Proof.
  unfold JSON_parse, parse_tokens. destruct (lex text) as [ts|]; [| discriminate ].
  destruct (parse_run ([], PValue) ts) as [[stack mode]|] eqn:Hrun; [| discriminate ].
  destruct stack; [| discriminate ]. destruct mode; try discriminate.
  intros [= ->].
  eapply (parse_run_defined ts ([], PValue) ([], PHave VUndefined)); try eassumption.
  - discriminate.
  - reflexivity.
  - reflexivity.
Qed.

(** X9. When each of the three stages gets a reply that decodes, the
    extraction declares no error, its ingredients are a list, and its product
    name and the first ten ingredients can be converted to a string (no
    object among them has a field [toString]), the analysis request succeeds:
    the three requests were made in the order Extract, Enrich, Summarize; the
    Enrich request is the one built from the product name (or ['Unknown
    Product']) and the first ten ingredients at most, the Summarize request
    the one built from the decoded extraction and enrichment; the session
    bound to the id holds exactly the three decoded values and an empty
    history. *)
Theorem analyze_all_stages_succeed (cap : Capability) (sessionId : jsstring) (f : File)
    (w : World) (t1 t2 t3 : jsstring) (a wi data : value) (items : list value) :
  accepted f -> buffer f <> [] ->
  let extract := ExtractCall (mimetype f) (base64 (buffer f)) in
  let productName := js_or (get_opt a (str "productName")) (VStr (str "Unknown Product")) in
  let enrich := EnrichCall productName (take 10 items) in
  let summarize := SummarizeCall a wi in
  reply cap extract = Content t1 -> coerce t1 = Some a ->
  a <> VNull ->
  truthy (get_opt a (str "isError")) = false ->
  truthy (get_opt a (str "error")) = false ->
  js_or (get_opt a (str "ingredients")) (VArr []) = VArr items ->
  has_string productName = true ->
  forallb has_string (take 10 items) = true ->
  reply cap enrich = Content t2 -> coerce t2 = Some wi ->
  reply cap summarize = Content t3 -> coerce t3 = Some data ->
  exists w',
    post_analyze cap sessionId (Some f) w
    = (Ok (Analyzed sessionId data analyze_suggestions), w')
    /\ calls w' = calls w ++ [extract; enrich; summarize]
    /\ (length (take 10 items) <= 10)%nat
    /\ session_of w' sessionId = Some (fresh_session (clock w') a wi data)
    /\ clock w' = (clock w + latency cap extract + latency cap enrich
                   + latency cap summarize)%Z.
Proof.
  intros Hacc Hb extract productName enrich summarize Hr1 Hc1 Hnull HisError Herror Hing
    Hname Hitems Hr2 Hc2 Hr3 Hc3.
  rewrite analyze_handler_run by assumption. cbv zeta. fold extract.
  assert (Hex : extract_outcome (reply cap extract) = AnalysisOk a).
  { rewrite Hr1. unfold extract_outcome. rewrite Hc1.
    destruct a; try congruence; try reflexivity.
    - exfalso. apply (JSON_parse_defined (clean_markdown t1)). exact Hc1.
    - cbn [get get_opt] in *. rewrite HisError, Herror. reflexivity. }
  rewrite Hex. rewrite searchProductInfo_run, Hing. fold productName.
  unfold enrich_request. rewrite Hname, Hitems. cbn [andb]. fold enrich.
  rewrite Hr2. unfold enrich_outcome. rewrite Hc2. cbn [search_success search_webInfo].
  rewrite generateFormattedSummary_run. fold summarize. rewrite Hr3, Hc3.
  eexists. split; [ reflexivity |].
  split; [ simpl; rewrite <- !app_assoc; reflexivity |].
  split; [ rewrite length_take; lia |].
  split; [ rewrite session_of_stored; reflexivity |].
  simpl. lia.
Qed.

Lemma analyze_all_stages_succeed_witness :
  exists w',
    post_analyze (always oat_crisp_text) example_id (Some png) (empty_world 0)
    = (Ok (Analyzed example_id oat_crisp analyze_suggestions), w')
    /\ session_of w' example_id = Some (fresh_session 3000 oat_crisp oat_crisp oat_crisp)
    /\ length (calls w') = 3%nat.
Proof.
  destruct (analyze_all_stages_succeed (always oat_crisp_text) example_id png (empty_world 0)
              oat_crisp_text oat_crisp_text oat_crisp_text oat_crisp oat_crisp oat_crisp
              [ VStr (str "oats"); VStr (str "sugar") ])
    as (w' & Hrun & Hcalls & _ & Hses & Hclock);
    try reflexivity; try discriminate.
  - split; [ reflexivity | vm_compute; discriminate ].
  - exists w'. split; [ exact Hrun |].
    split; [ rewrite Hses, Hclock; reflexivity | rewrite Hcalls; reflexivity ].
Defined.

(** X15. When the prompt of the Enrich stage cannot be built (the
    ingredients of the extraction are truthy but no list, or the product name
    or one of the first ten ingredients is or holds an object with a field
    [toString], which the template literal and [join] cannot convert), the
    stage fails inside its [try] without any request, and the analysis goes
    on with the fixed default: the requests made are Extract then Summarize
    with that default, and when the summary decodes the request succeeds and
    the session holds the default as its enrichment. *)
Theorem analyze_without_enrich_request (cap : Capability) (sessionId : jsstring) (f : File)
    (w : World) (t1 t3 : jsstring) (a data : value) :
  accepted f -> buffer f <> [] ->
  let extract := ExtractCall (mimetype f) (base64 (buffer f)) in
  let productName := js_or (get_opt a (str "productName")) (VStr (str "Unknown Product")) in
  let ingredients := js_or (get_opt a (str "ingredients")) (VArr []) in
  let summarize := SummarizeCall a default_webInfo in
  reply cap extract = Content t1 -> coerce t1 = Some a ->
  a <> VNull ->
  truthy (get_opt a (str "isError")) = false ->
  truthy (get_opt a (str "error")) = false ->
  ((forall items, ingredients <> VArr items)
   \/ has_string productName = false
   \/ exists items, ingredients = VArr items /\ forallb has_string (take 10 items) = false) ->
  reply cap summarize = Content t3 -> coerce t3 = Some data ->
  exists w',
    post_analyze cap sessionId (Some f) w
    = (Ok (Analyzed sessionId data analyze_suggestions), w')
    /\ calls w' = calls w ++ [extract; summarize]
    /\ session_of w' sessionId = Some (fresh_session (clock w') a default_webInfo data).
Proof.
  intros Hacc Hb extract productName ingredients summarize Hr1 Hc1 Hnull HisError Herror
    Hprompt Hr3 Hc3.
  rewrite analyze_handler_run by assumption. cbv zeta. fold extract.
  assert (Hex : extract_outcome (reply cap extract) = AnalysisOk a).
  { rewrite Hr1. unfold extract_outcome. rewrite Hc1.
    destruct a; try congruence; try reflexivity.
    - exfalso. apply (JSON_parse_defined (clean_markdown t1)). exact Hc1.
    - cbn [get get_opt] in *. rewrite HisError, Herror. reflexivity. }
  rewrite Hex. rewrite searchProductInfo_run. fold productName ingredients.
  assert (Hnone : enrich_request productName ingredients = None).
  { unfold enrich_request. destruct Hprompt as [Hlist | [Hname | (items & -> & Hitems)]].
    - destruct ingredients; try reflexivity. exfalso. eapply Hlist. reflexivity.
    - rewrite Hname. destruct ingredients; reflexivity.
    - rewrite Hitems, andb_false_r. reflexivity. }
  rewrite Hnone. cbn [search_success].
  rewrite generateFormattedSummary_run. fold summarize. rewrite Hr3, Hc3.
  eexists. split; [ reflexivity |].
  split; [ simpl; rewrite <- !app_assoc; reflexivity |].
  rewrite session_of_stored. reflexivity.
Qed.

Lemma analyze_without_enrich_request_witness :
  exists a w',
    coerce odd_name = Some a
    /\ post_analyze (always odd_name) example_id (Some png) (empty_world 0)
       = (Ok (Analyzed example_id a analyze_suggestions), w')
    /\ calls w' = [ ExtractCall (str "image/png") (str "iVBORw==");
                    SummarizeCall a default_webInfo ]
    /\ option_map webInfo (session_of w' example_id) = Some default_webInfo.
Proof.
  assert (Hc : exists a, coerce odd_name = Some a /\ a <> VNull
                         /\ has_string (js_or (get_opt a (str "productName"))
                                          (VStr (str "Unknown Product"))) = false
                         /\ truthy (get_opt a (str "isError")) = false
                         /\ truthy (get_opt a (str "error")) = false).
  { eexists. vm_compute. repeat split; try reflexivity. discriminate. }
  destruct Hc as (a & Hc & Hnull & Hname & HisError & Herror).
  destruct (analyze_without_enrich_request (always odd_name) example_id png (empty_world 0)
              odd_name odd_name a a)
    as (w' & Hrun & Hcalls & Hses);
    try assumption; try reflexivity.
  - split; [ reflexivity | vm_compute; discriminate ].
  - discriminate.
  - right. left. exact Hname.
  - exists a, w'. split; [ exact Hc |]. split; [ exact Hrun |].
    split; [ exact Hcalls |]. rewrite Hses. reflexivity.
Defined.

(** ** The stages *)

(** X10. Called as the application calls them, [analyzeImage],
    [searchProductInfo] and [handleFollowUp] never throw. That is:
    [analyzeImage] with two strings (the base64 text of the upload and its
    media type; the stage reads the length of the first before its [try], so
    this says nothing of a call with [null] or [undefined]),
    [searchProductInfo] with any two decoded values, [handleFollowUp] with
    any two decoded values, a string and a list of entries. Whatever the
    capability does, they resolve to a result, after at most one request to
    the capability, and they leave the sessions alone. *)
Theorem stages_always_resolve (cap : Capability) (w : World) :
  let quiet (w' : World) :=
    sessions w' = sessions w /\ objects w' = objects w
    /\ (calls w' = calls w \/ exists call, calls w' = calls w ++ [call]) in
  (forall imageBase64 mimeType : jsstring,
      exists r w', analyzeImage cap imageBase64 mimeType w = (Ok r, w') /\ quiet w')
  /\ (forall productName ingredients : value,
        exists r w', searchProductInfo cap productName ingredients w = (Ok r, w') /\ quiet w')
  /\ (forall (a wi : value) (question : jsstring) (h : list Entry),
        exists r w', handleFollowUp cap a wi question h w = (Ok r, w') /\ quiet w').
Proof.
  intros quiet. subst quiet. split; [| split ].
  - intros b m.
    destruct b as [|c b].
    { destruct (analyzeImage_rejects cap [] m w) as [e ->]; [ left; reflexivity |].
      eexists _, _. split; [ reflexivity |]. repeat split. left. reflexivity. }
    destruct (startsWith m (str "image/")) eqn:Hm.
    + rewrite analyzeImage_invokes by (discriminate || exact Hm).
      eexists _, _. split; [ reflexivity |]. repeat split. right. eexists. reflexivity.
    + destruct (analyzeImage_rejects cap (c :: b) m w) as [e ->]; [ right; exact Hm |].
      eexists _, _. split; [ reflexivity |]. repeat split. left. reflexivity.
  - intros pn ing. rewrite searchProductInfo_run.
    destruct (enrich_request pn ing); eexists _, _; (split; [ reflexivity |]); repeat split;
      try (left; reflexivity).
    right. eexists. reflexivity.
  - intros a wi question h. rewrite handleFollowUp_run.
    eexists _, _. split; [ reflexivity |]. repeat split. right. eexists. reflexivity.
Qed.



(** X12. [analyzeImage] succeeds exactly when it was given data and a media
    type that starts with [image/], the reply decodes, and the decoded value
    is not [null] and has neither a truthy [isError] nor a truthy [error]:
    nothing else about the value is checked, so a number, a string or a list
    is a successful analysis. *)
Theorem analyzeImage_success_iff (cap : Capability) (imageBase64 mimeType : jsstring)
    (w : World) (a : value) :
  fst (analyzeImage cap imageBase64 mimeType w) = Ok (AnalysisOk a)
  <-> imageBase64 <> []
      /\ startsWith mimeType (str "image/") = true
      /\ exists text,
           reply cap (ExtractCall mimeType imageBase64) = Content text
           /\ coerce text = Some a
           /\ a <> VNull
           /\ truthy (get_opt a (str "isError")) = false
           /\ truthy (get_opt a (str "error")) = false.
Proof.
  split.
  - intros H.
    destruct imageBase64 as [|c b].
    { destruct (analyzeImage_rejects cap [] mimeType w) as [e He]; [ left; reflexivity |].
      rewrite He in H. discriminate. }
    destruct (startsWith mimeType (str "image/")) eqn:Hm.
    2: { destruct (analyzeImage_rejects cap (c :: b) mimeType w) as [e He];
           [ right; exact Hm |].
         rewrite He in H. discriminate. }
    rewrite analyzeImage_invokes in H by (discriminate || exact Hm). simpl in H.
    split; [ discriminate |]. split; [ reflexivity |].
    unfold extract_outcome in H.
    destruct (reply cap (ExtractCall mimeType (c :: b))) as [e|text]; [ discriminate |].
    exists text. split; [ reflexivity |].
    destruct (coerce text) as [v|]; [| discriminate ].
    destruct v; simpl in H; try discriminate;
      try (injection H as <-; repeat split; discriminate).
    cbn [get] in H.
    destruct (truthy (lookup_field (str "isError") fields)) eqn:E1;
      [ discriminate |].
    destruct (truthy (lookup_field (str "error") fields)) eqn:E2;
      [ discriminate |].
    injection H as <-. repeat split; try discriminate; assumption.
  - intros (Hb & Hm & text & Hr & Hc & Hn & H1 & H2).
    rewrite analyzeImage_invokes by assumption. simpl.
    rewrite Hr. unfold extract_outcome. rewrite Hc.
    destruct a; try congruence; try reflexivity.
    + exfalso. apply (JSON_parse_defined (clean_markdown text)). exact Hc.
    + cbn [get get_opt] in *. rewrite H1, H2. reflexivity.
Qed.

Lemma analyzeImage_success_iff_witness :
  fst (analyzeImage (always (str "[1, 2]")) (str "iVBORw==") (str "image/bmp") (empty_world 0))
  = Ok (AnalysisOk (VArr [ VNum (num 1); VNum (num 2) ]))
  /\ fst (analyzeImage (always (str "null")) (str "iVBORw==") (str "image/png")
            (empty_world 0))
     <> Ok (AnalysisOk VNull).
Proof.
  split.
  - apply analyzeImage_success_iff.
    split; [ discriminate |]. split; [ reflexivity |].
    exists (str "[1, 2]"). repeat split; discriminate.
  - intros H. apply analyzeImage_success_iff in H.
    destruct H as (_ & _ & text & _ & _ & Hn & _). apply Hn. reflexivity.
Defined.

(** ** Replies with something behind the fence *)

Lemma lex_start_literal (P : N -> bool) (out : list token) (c : N) (l : lexer) :
  forallb P (str "rue") = true -> forallb P (str "alse") = true ->
  forallb P (str "ull") = true ->
  lex_start out c = Some l -> literal_inv P l.
Proof.
  intros Ht Hf Hn. unfold lex_start. intros H.
  repeat match type of H with
         | (if ?b then _ else _) = _ => destruct b
         end;
    try discriminate; injection H as <-; first [ exact I | assumption ].
Qed.

Lemma lex_step_literal (P : N -> bool) (l : lexer) (c : N) (l' : lexer) :
  forallb P (str "rue") = true -> forallb P (str "alse") = true ->
  forallb P (str "ull") = true ->
  literal_inv P l -> lex_step l c = Some l' -> literal_inv P l'.
Proof.
  intros Ht Hf Hn.
  destruct l as [out [|rest t|acc p|p a]]; unfold literal_inv; simpl; intros Hok Hstep;
    unfold lex_literal, lex_string, lex_number in Hstep.
  - eapply lex_start_literal; eassumption.
  - destruct rest as [|e rest]; [ discriminate |]. simpl in Hok.
    apply andb_true_iff in Hok as [_ Hok].
    destruct (c =? e); [| discriminate ].
    destruct rest; injection Hstep as <-; [ exact I | exact Hok ].
  - destruct p as [| |k code];
      repeat match type of Hstep with
             | (if ?b then _ else _) = _ => destruct b
             | match ?o with Some _ => _ | None => _ end = _ => destruct o
             | match ?k with O => _ | S _ => _ end = _ => destruct k
             end;
      try discriminate; inversion Hstep; exact I.
  - assert (Hend : forall l1, end_number out p a c = Some l1 -> literal_inv P l1).
    { intros l1. unfold end_number. destruct (finish_number p a); [| discriminate ].
      apply lex_start_literal; assumption. }
    destruct p; simpl in Hstep;
      repeat match type of Hstep with
             | (if ?b then _ else _) = _ => destruct b
             end;
      try discriminate;
      try (injection Hstep as <-; exact I);
      apply Hend; exact Hstep.
Qed.

Lemma lex_run_literal (P : N -> bool) (s : jsstring) (l l' : lexer) :
  forallb P (str "rue") = true -> forallb P (str "alse") = true ->
  forallb P (str "ull") = true ->
  literal_inv P l -> lex_run l s = Some l' -> literal_inv P l'.
Proof.
  intros Ht Hf Hn. revert l. induction s as [|c s IH]; simpl; intros l Hok Hrun.
  - injection Hrun as <-. exact Hok.
  - destruct (lex_step l c) as [l1|] eqn:Hstep; [| discriminate ].
    eapply IH; [ eapply lex_step_literal; eassumption | exact Hrun ].
Qed.

(** No JSON text ends with a backquote. *)
Lemma lex_backquote_end (y : jsstring) : lex (y ++ [ch "`"]) = None.
Proof.
  unfold lex. rewrite lex_run_snoc.
  destruct (lex_run ([], LStart) y) as [l|] eqn:Hrun; [| reflexivity ].
  assert (Hinv : literal_inv (fun c => negb (c =? 96)) l).
  { apply (lex_run_literal _ y ([], LStart) l);
      [ reflexivity | reflexivity | reflexivity | exact I | exact Hrun ]. }
  change (ch "`") with 96.
  destruct l as [out [|rest t|acc p|p a]]; unfold lex_step.
  - reflexivity.
  - unfold lex_literal. destruct rest as [|e rest]; [ reflexivity |].
    unfold literal_inv in Hinv. simpl in Hinv. apply andb_true_iff in Hinv as [He _].
    destruct (N.eqb_spec 96 e) as [<-|]; [ discriminate He | reflexivity ].
  - destruct p as [| |[|k] code]; reflexivity.
  - destruct p; reflexivity.
Qed.

Lemma JSON_parse_backquote_end (y : jsstring) : JSON_parse (y ++ [ch "`"]) = None.
Proof. unfold JSON_parse. rewrite lex_backquote_end. reflexivity. Qed.

Lemma trimStart_keeps (pre trailing : jsstring) (c : N) :
  isWhiteSpace c = false ->
  exists pre', trimStart (pre ++ c :: trailing) = pre' ++ c :: trailing.
Proof.
  intros Hc. induction pre as [|d pre IH]; simpl.
  - rewrite Hc. exists []. reflexivity.
  - destruct (isWhiteSpace d); [ exact IH | exists (d :: pre); reflexivity ].
Qed.

Lemma trimEnd_drops (x trailing : jsstring) (c : N) :
  isWhiteSpace c = false -> forallb isWhiteSpace trailing = true ->
  trimEnd (x ++ c :: trailing) = x ++ [c].
Proof.
  intros Hc. induction trailing as [|d trailing IH] using rev_ind; intros Hws.
  - rewrite trimEnd_snoc, Hc. reflexivity.
  - rewrite forallb_app in Hws. apply andb_true_iff in Hws as [Hws Hd].
    simpl in Hd. rewrite andb_true_r in Hd.
    change (x ++ c :: trailing ++ [d]) with (x ++ (c :: trailing) ++ [d]).
    rewrite app_assoc, trimEnd_snoc, Hd. apply IH. exact Hws.
Qed.

Lemma remove_closing_ws (u : jsstring) :
  forallb isWhiteSpace u = true -> remove_closing (LF :: str "```") u = u.
Proof.
  induction u as [|c u IH]; intros Hws; cbn [remove_closing]; [ reflexivity |].
  destruct (jsstring_eqb (c :: u) (LF :: str "```")) eqn:E.
  - apply jsstring_eqb_eq in E. rewrite E in Hws. discriminate Hws.
  - simpl in Hws. apply andb_true_iff in Hws as [_ Hws]. rewrite IH by exact Hws.
    reflexivity.
Qed.

Lemma remove_closing_cons (closing s : jsstring) (c : N) :
  remove_closing closing (c :: s)
  = if jsstring_eqb (c :: s) closing then [] else c :: remove_closing closing s.
Proof. reflexivity. Qed.

Lemma remove_closing_not_last (t trailing : jsstring) :
  trailing <> [] -> forallb isWhiteSpace trailing = true ->
  remove_closing (LF :: str "```") (t ++ (LF :: str "```") ++ trailing)
  = t ++ (LF :: str "```") ++ trailing.
Proof.
  intros Hne Hws. induction t as [|c t IH]; cbn [app] in *.
  - change (str "```") with [96; 96; 96]. cbn [app].
    do 4 rewrite remove_closing_cons.
    pose proof (remove_closing_ws trailing Hws) as Hrest.
    change (str "```") with [96; 96; 96] in Hrest. rewrite Hrest.
    destruct (jsstring_eqb (LF :: 96 :: 96 :: 96 :: trailing) [LF; 96; 96; 96]) eqn:E.
    { apply jsstring_eqb_eq in E. congruence. }
    cbn [jsstring_eqb]. change (96 =? LF) with false. cbn [andb].
    replace ((96 =? 96) && ((96 =? 96) && false)) with false by reflexivity.
    reflexivity.
  - rewrite remove_closing_cons.
    destruct (jsstring_eqb (c :: t ++ LF :: str "```" ++ trailing) (LF :: str "```")) eqn:E.
    + apply jsstring_eqb_eq in E. apply (f_equal length) in E.
      destruct trailing; [ congruence |].
      simpl in E. rewrite !length_app in E. simpl in E. lia.
    + rewrite IH. reflexivity.
Qed.

Lemma trim_backquote_end (s trailing : jsstring) :
  forallb isWhiteSpace trailing = true ->
  exists y, trim (s ++ ch "`" :: trailing) = y ++ [ch "`"].
Proof.
  intros Hws. unfold trim.
  destruct (trimStart_keeps s trailing (ch "`")) as [pre' ->]; [ reflexivity |].
  exists pre'. apply trimEnd_drops; [ reflexivity | exact Hws ].
Qed.

Lemma fenced_app (tag t trailing : jsstring) :
  fenced tag t ++ trailing
  = (str "```" ++ tag ++ [LF]) ++ (t ++ (LF :: str "```") ++ trailing).
Proof.
  unfold fenced. rewrite <- !app_assoc. cbn [app]. rewrite <- !app_assoc. reflexivity.
Qed.

Lemma clean_markdown_trailing (tag t trailing : jsstring) :
  tag = str "json" \/ tag = [] ->
  trailing <> [] -> forallb isWhiteSpace trailing = true ->
  clean_markdown (fenced tag t ++ trailing) = trim (t ++ (LF :: str "```") ++ trailing).
Proof.
  intros Htag Hne Hws. rewrite fenced_app. unfold clean_markdown, replace_fences.
  destruct Htag as [-> | ->].
  - change (str "```" ++ str "json" ++ [LF]) with (str "```json" ++ [LF]).
    assert (H : startsWith ((str "```json" ++ [LF]) ++ t ++ (LF :: str "```") ++ trailing)
                  (str "```json") = true).
    { eapply startsWith_trans. apply startsWith_app. }
    rewrite H, startsWith_app, drop_app_length, remove_closing_not_last by assumption.
    reflexivity.
  - change (str "```" ++ [] ++ [LF]) with (str "```" ++ [LF]).
    assert (H : startsWith ((str "```" ++ [LF]) ++ t ++ (LF :: str "```") ++ trailing)
                  (str "```") = true).
    { eapply startsWith_trans. apply startsWith_app. }
    rewrite H, startsWith_app, drop_app_length, remove_closing_not_last by assumption.
    reflexivity.
Qed.

(** X13. A fenced reply with white space behind the closing fence, a final
    newline for one, is never decoded: the closing fence is only removed at
    the very end of the reply, and trimming comes after the removal, so the
    backquotes stay and [JSON.parse] fails, whatever is inside the fence. *)
Theorem fenced_reply_with_trailing_space (t trailing : jsstring) :
  trailing <> [] -> forallb isWhiteSpace trailing = true ->
  coerce (fenced (str "json") t ++ trailing) = None
  /\ coerce (fenced [] t ++ trailing) = None.
Proof.
  intros Hne Hws.
  assert (Hparse : JSON_parse (trim (t ++ (LF :: str "```") ++ trailing)) = None).
  { change ((LF :: str "```") ++ trailing) with ([LF; 96; 96] ++ ch "`" :: trailing).
    rewrite app_assoc.
    destruct (trim_backquote_end (t ++ [LF; 96; 96]) trailing Hws) as [y ->].
    apply JSON_parse_backquote_end. }
  unfold coerce. rewrite !clean_markdown_trailing by auto. auto.
Qed.

Lemma fenced_reply_with_trailing_space_witness :
  coerce (fenced (str "json") oat_crisp_text ++ [LF]) = None
  /\ coerce (fenced (str "json") oat_crisp_text) = Some oat_crisp.
Proof.
  split.
  - apply (fenced_reply_with_trailing_space oat_crisp_text [LF]);
      [ discriminate | reflexivity ].
  - vm_compute. reflexivity.
Defined.

(** ** The session information route *)


